(** * StepsForm: the orchestration state machine of the multi-step form wizard

    Shallow embedding of [packages/form/src/layouts/StepsForm/index.tsx].
    React state ([useState], [useRef], [useMergedState]) becomes one record
    that every callback takes and returns; the asynchronous [onFormFinish]
    is split at its single [await]. *)

From Stdlib Require Import ZArith Lia.
From stdpp Require Import base gmap list strings pretty.

(** ** Insertion-ordered maps

    A JavaScript [Map] iterates in insertion order, and [set] on a key that
    is already present keeps the key where it is.  Order matters for the
    merge, so the map is an association list. *)
Module JsMap.
Section Ops.
Context {V : Type}.

Definition t : Type := list (string * V).

Definition empty : t := [].

Fixpoint has (k : string) (m : t) : bool :=
  match m with
  | [] => false
  | (k', _) :: m' => if decide (k' = k) then true else has k m'
  end.

Fixpoint get (k : string) (m : t) : option V :=
  match m with
  | [] => None
  | (k', v) :: m' => if decide (k' = k) then Some v else get k m'
  end.

Fixpoint set (k : string) (v : V) (m : t) : t :=
  match m with
  | [] => [(k, v)]
  | (k', v') :: m' =>
      if decide (k' = k) then (k, v) :: m' else (k', v') :: set k v m'
  end.

Fixpoint delete (k : string) (m : t) : t :=
  match m with
  | [] => []
  | (k', v') :: m' =>
      if decide (k' = k) then delete k m' else (k', v') :: delete k m'
  end.

Definition keys (m : t) : list string := m.*1.
Definition values (m : t) : list V := m.*2.
End Ops.
Arguments t : clear implicits.
End JsMap.

(** ** Data *)

(** One step's field values, [Record<string, any>]; the field values are
    opaque to the wizard. *)
Abbreviation Values := (gmap string Z).

(** The part of antd's [FormInstance] the wizard touches: [resetFields]
    puts every field back to its initial value. *)
Record FormInstance := {
  fieldsValue : Values;
  initialValues : Values;
}.

Definition resetFields (f : FormInstance) : FormInstance :=
  {| fieldsValue := initialValues f; initialValues := initialValues f |}.

(** [StepFormProps], the per-step configuration kept in [formMapRef]. *)
Record StepFormProps := {
  title : string;
}.

(** How the promise returned by the host's [onFinish] settles:
    [Promise<boolean | void>] resolves to a boolean or to nothing, or it
    rejects (a synchronous throw inside [try] ends in the same place). *)
Inductive Outcome :=
  | Resolved (success : option bool)
  | Rejected (error : string).

Definition truthy (v : option bool) : bool :=
  match v with
  | Some true => true
  | _ => false
  end.

(** [submitter]: [false], or a configuration whose [submitButtonProps] may
    carry its own [loading]. *)
Inductive Submitter :=
  | SubmitterFalse
  | SubmitterProps (submitButtonLoading : option bool).

Record StepsFormProps := {
  onFinish : option (Values -> Outcome);
  current : option Z;
  onCurrentChange : bool;
  submitter : option Submitter;
}.

Record State := {
  formDataRef : JsMap.t Values;
  formMapRef : JsMap.t StepFormProps;
  formArrayRef : list (option FormInstance);
  formArray : list string;
  loading : bool;
  innerStep : Z;
  (* observable effects *)
  console : list string;
  currentChanges : list Z;
  finishCalls : list Values;
}.

Definition initial : State :=
  {| formDataRef := JsMap.empty; formMapRef := JsMap.empty;
     formArrayRef := []; formArray := []; loading := false; innerStep := 0;
     console := []; currentChanges := []; finishCalls := [] |}.

(** ** The step cursor

    [useMergedState(0, {value: props.current, onChange: props.onCurrentChange})]
    of rc-util: the value read is the controlled one when [current] is
    given and the inner one otherwise; the setter stores the inner value
    and tells the listener when the value read differs from the new one. *)
Definition step (p : StepsFormProps) (s : State) : Z :=
  match current p with
  | Some v => v
  | None => innerStep s
  end.

Definition setStep (p : StepsFormProps) (v : Z) (s : State) : State :=
  {| formDataRef := formDataRef s; formMapRef := formMapRef s;
     formArrayRef := formArrayRef s; formArray := formArray s;
     loading := loading s; innerStep := v; console := console s;
     currentChanges :=
       if bool_decide (step p s ≠ v) && onCurrentChange p
       then currentChanges s ++ [v] else currentChanges s;
     finishCalls := finishCalls s |}.

Definition setLoading (b : bool) (s : State) : State :=
  {| formDataRef := formDataRef s; formMapRef := formMapRef s;
     formArrayRef := formArrayRef s; formArray := formArray s;
     loading := b; innerStep := innerStep s; console := console s;
     currentChanges := currentChanges s; finishCalls := finishCalls s |}.

Definition stepCount (s : State) : Z := Z.of_nat (length (formArray s)).

(** [step === formArray.length - 1] *)
Definition lastStep (p : StepsFormProps) (s : State) : bool :=
  bool_decide (step p s = (stepCount s - 1)%Z).

(** ** Step registry *)

Definition regForm (name : string) (childrenFormProps : StepFormProps)
    (s : State) : State :=
  {| formDataRef := formDataRef s;
     formMapRef := JsMap.set name childrenFormProps (formMapRef s);
     formArrayRef := formArrayRef s;
     formArray :=
       if JsMap.has name (formMapRef s) then formArray s
       else formArray s ++ [name];
     loading := loading s; innerStep := innerStep s; console := console s;
     currentChanges := currentChanges s; finishCalls := finishCalls s |}.

(** [oldFormArray.filter((n) => n === name)], as written. *)
Definition unRegForm (name : string) (s : State) : State :=
  {| formDataRef := JsMap.delete name (formDataRef s);
     formMapRef := JsMap.delete name (formMapRef s);
     formArrayRef := formArrayRef s;
     formArray := filter (λ n, n = name) (formArray s);
     loading := loading s; innerStep := innerStep s; console := console s;
     currentChanges := currentChanges s; finishCalls := finishCalls s |}.

(** ** Aggregation and final submission *)

(** Modelled from the spec: [merge] of [@ant-design/pro-utils], which
    lives in packages/utils and not in the module embedded here.  The spec
    calls it a shallow, last-wins merge: on a key collision the field of
    the later argument replaces the field of the earlier one. *)
Definition merge (target : Values) (sources : list Values) : Values :=
  foldl (λ acc r, r ∪ acc) target sources.

Definition storeData (name : string) (formData : Values) (s : State) : State :=
  {| formDataRef := JsMap.set name formData (formDataRef s);
     formMapRef := formMapRef s; formArrayRef := formArrayRef s;
     formArray := formArray s; loading := loading s;
     innerStep := innerStep s; console := console s;
     currentChanges := currentChanges s; finishCalls := finishCalls s |}.

Definition callFinish (values : Values) (s : State) : State :=
  {| formDataRef := formDataRef s; formMapRef := formMapRef s;
     formArrayRef := formArrayRef s; formArray := formArray s;
     loading := loading s; innerStep := innerStep s; console := console s;
     currentChanges := currentChanges s;
     finishCalls := finishCalls s ++ [values] |}.

Definition consoleLog (error : string) (s : State) : State :=
  {| formDataRef := formDataRef s; formMapRef := formMapRef s;
     formArrayRef := formArrayRef s; formArray := formArray s;
     loading := loading s; innerStep := innerStep s;
     console := console s ++ [error];
     currentChanges := currentChanges s; finishCalls := finishCalls s |}.

(** [form.current?.resetFields()]: a ref that holds no form is skipped. *)
Definition resetRef (form : option FormInstance) : option FormInstance :=
  resetFields <$> form.

(** [formArrayRef.current.forEach((form) => form.current?.resetFields())] *)
Definition resetAllFields (s : State) : State :=
  {| formDataRef := formDataRef s; formMapRef := formMapRef s;
     formArrayRef := resetRef <$> formArrayRef s;
     formArray := formArray s; loading := loading s;
     innerStep := innerStep s; console := console s;
     currentChanges := currentChanges s; finishCalls := finishCalls s |}.

(** [onFormFinish] up to its [await]: the state reached, and the merged
    values handed to [onFinish] when the handler is invoked. *)
Definition onFormFinish_begin (p : StepsFormProps) (name : string)
    (formData : Values) (s : State) : State * option Values :=
  let s1 := storeData name formData s in
  if negb (lastStep p s1) || negb (bool_decide (is_Some (onFinish p)))
  then (s1, None)
  else
    let s2 := setLoading true s1 in
    let values := merge ∅ (JsMap.values (formDataRef s2)) in
    (callFinish values s2, Some values).

(** The body of [try] after the [await]: the state it leaves and the error
    it throws, if any.  A rejected promise makes [await] throw. *)
Definition tryBody (p : StepsFormProps) (r : Outcome) (s : State)
    : State * option string :=
  match r with
  | Resolved success =>
      (if truthy success then resetAllFields (setStep p 0 s) else s, None)
  | Rejected error => (s, Some error)
  end.

(** [catch (error) { console.log(error) }] *)
Definition catchLog (res : State * option string) : State * option string :=
  match res with
  | (s, Some error) => (consoleLog error s, None)
  | (s, None) => (s, None)
  end.

(** [finally { setLoading(false) }]: runs whatever the outcome, which it
    passes on. *)
Definition finallyIdle (res : State * option string) : State * option string :=
  (setLoading false res.1, res.2).

(** [onFormFinish] after its [await], for each way the promise settles:
    the state, and the error the call itself ends with ([None] when the
    promise it returned is fulfilled). *)
Definition onFormFinish_settle (p : StepsFormProps) (r : Outcome)
    (s : State) : State * option string :=
  finallyIdle (catchLog (tryBody p r s)).

(** The whole call when nothing else happens while the handler is pending. *)
Definition onFormFinish (p : StepsFormProps) (name : string)
    (formData : Values) (s : State) : State * option string :=
  match onFormFinish_begin p name formData s, onFinish p with
  | (s1, Some values), Some handler => onFormFinish_settle p (handler values) s1
  | (s1, _), _ => (s1, None)
  end.

(** ** Navigation *)

Definition prePage (p : StepsFormProps) (s : State) : State :=
  if bool_decide (step p s < 1)%Z then s
  else setStep p (step p s - 1) s.

Definition nextPage (p : StepsFormProps) (s : State) : State :=
  if bool_decide (step p s > stepCount s - 2)%Z then s
  else setStep p (step p s + 1) s.

(** ** Action buttons *)

(** A rendered antd [Button]: its [key] and its [loading] prop. *)
Record ButtonEl := {
  key : string;
  btnLoading : bool;
}.

(** [submitter !== false && <Button .../>] is [false] or a button. *)
Abbreviation Element := (option ButtonEl).

(** [loading={loading} {...submitter?.submitButtonProps}]: a [loading] among
    the spread props replaces the wizard's flag. *)
Definition submitButtonLoading (p : StepsFormProps) (s : State) : bool :=
  match submitter p with
  | Some (SubmitterProps (Some b)) => b
  | _ => loading s
  end.

Definition submitterOn (p : StepsFormProps) : bool :=
  match submitter p with
  | Some SubmitterFalse => false
  | _ => true
  end.

Definition next (p : StepsFormProps) (s : State) : Element :=
  if submitterOn p
  then Some {| key := "next"; btnLoading := submitButtonLoading p s |}
  else None.

Definition pre (p : StepsFormProps) (s : State) : Element :=
  if submitterOn p
  then Some {| key := "pre"; btnLoading := false |}
  else None.

Definition submit (p : StepsFormProps) (s : State) : Element :=
  if submitterOn p
  then Some {| key := "submit"; btnLoading := submitButtonLoading p s |}
  else None.

(** [getActionButton] picks among the three memoised nodes. *)
Inductive ActionButton := BtnNext | BtnPre | BtnSubmit.

Definition element (p : StepsFormProps) (s : State) (b : ActionButton)
    : Element :=
  match b with
  | BtnNext => next p s
  | BtnPre => pre p s
  | BtnSubmit => submit p s
  end.

(** [step || 0] is [step] on integers. *)
Definition getActionButton (p : StepsFormProps) (s : State)
    : list ActionButton :=
  let index := step p s in
  if bool_decide (index < 1)%Z then [BtnNext]
  else if bool_decide (index + 1 = stepCount s)%Z then [BtnPre; BtnSubmit]
  else [BtnPre; BtnNext].

(** ** The wizard as a transition system

    [onFormFinish] suspends at its [await], so other callbacks can run
    before the handler settles.  A configuration is the state together
    with the handler invocations that have not settled yet. *)
Inductive Event :=
  | ClickSubmit (name : string) (formData : Values)
      (* a click on the next / submit button; the active step form
         validates and reports [name] and [formData] *)
  | CallOnSubmit (name : string) (formData : Values)
      (* [onSubmit] as handed to [submitter.render], called directly *)
  | Settle (r : Outcome)
      (* the oldest pending [onFinish] promise settles *)
  | PrePage
  | NextPage.

Definition Config : Type := State * list Values.

(** antd's [Button] ignores clicks while its [loading] prop is set; a
    [false] element puts nothing on screen. *)
Definition fires (e : Element) : bool :=
  match e with
  | Some b => negb (btnLoading b)
  | None => false
  end.

(** The next / submit button is the last of the action buttons. *)
Definition primaryButton (p : StepsFormProps) (s : State) : Element :=
  List.last (element p s <$> getActionButton p s) None.

Definition report (p : StepsFormProps) (name : string) (formData : Values)
    (c : Config) : Config :=
  let '(s1, call) := onFormFinish_begin p name formData c.1 in
  (s1, c.2 ++ option_list call).

Definition handle (p : StepsFormProps) (c : Config) (e : Event) : Config :=
  match e with
  | ClickSubmit name formData =>
      if fires (primaryButton p c.1) then report p name formData c else c
  | CallOnSubmit name formData => report p name formData c
  | Settle r =>
      match c.2 with
      | [] => c
      | _ :: pending => ((onFormFinish_settle p r c.1).1, pending)
      end
  | PrePage => (prePage p c.1, c.2)
  | NextPage => (nextPage p c.1, c.2)
  end.

Definition run (p : StepsFormProps) (c : Config) (es : list Event) : Config :=
  foldl (handle p) c es.

(** ** Sequences of calls *)

Inductive Nav := GoNext | GoPrevious.

Definition navigate (p : StepsFormProps) (s : State) (n : Nav) : State :=
  match n with
  | GoNext => nextPage p s
  | GoPrevious => prePage p s
  end.

(** The cursor is an index into [formArray], or 0 when there is no step. *)
Definition validCursor (p : StepsFormProps) (s : State) : Prop :=
  (formArray s = [] ∧ step p s = 0%Z) ∨ (0 ≤ step p s < stepCount s)%Z.

(** The calls that leave the cursor an index: page changes and
    registrations. *)
Inductive CursorOp :=
  | Navigate (n : Nav)
  | Register (name : string) (childrenFormProps : StepFormProps).

Definition applyOp (p : StepsFormProps) (s : State) (op : CursorOp) : State :=
  match op with
  | Navigate n => navigate p s n
  | Register name childrenFormProps => regForm name childrenFormProps s
  end.

(** Steps finishing one after the other, each call running to its end
    before the next. *)
Definition finishAll (p : StepsFormProps) (finishes : list (string * Values))
    (s : State) : State :=
  foldl (λ s f, (onFormFinish p f.1 f.2 s).1) s finishes.

(** Names in the order in which each appears for the first time. *)
Fixpoint firstFinishOrder (names : list string) : list string :=
  match names with
  | [] => []
  | n :: rest => n :: filter (λ m, m ≠ n) (firstFinishOrder rest)
  end.

(** Names in the order in which each appears for the last time. *)
Fixpoint lastFinishOrder (names : list string) : list string :=
  match names with
  | [] => []
  | n :: rest =>
      if bool_decide (n ∈ rest) then lastFinishOrder rest
      else n :: lastFinishOrder rest
  end.

(** The field a last-wins merge of [vs] holds under [k]: the one of the
    last record that has the key. *)
Fixpoint lookupLast (vs : list Values) (k : string) : option Z :=
  match vs with
  | [] => None
  | v :: rest =>
      match lookupLast rest k with
      | Some x => Some x
      | None => v !! k
      end
  end.

(** The handler did not signal success: a falsy value, or a rejection. *)
Definition failed (r : Outcome) : Prop :=
  match r with
  | Resolved success => truthy success = false
  | Rejected _ => True
  end.

(** What [console.log] receives when the promise settles as [r]. *)
Definition logged (r : Outcome) : list string :=
  match r with
  | Resolved _ => []
  | Rejected error => [error]
  end.

Definition overridesLoading (p : StepsFormProps) : bool :=
  match submitter p with
  | Some (SubmitterProps (Some _)) => true
  | _ => false
  end.

(** Events that reach [onFormFinish] through the rendered buttons only. *)
Definition viaButtons (e : Event) : bool :=
  match e with
  | CallOnSubmit _ _ => false
  | _ => true
  end.

(** At most one invocation of the handler is pending, and the flag is up
    exactly while one is. *)
Definition oneAtATime (c : Config) : Prop :=
  length c.2 = if loading c.1 then 1%nat else 0%nat.

(** ** Scenario data *)

Definition cfg (t : string) : StepFormProps := {| title := t |}.

Definition blank : FormInstance := {| fieldsValue := ∅; initialValues := ∅ |}.

Definition filled (v : Values) : FormInstance :=
  {| fieldsValue := v; initialValues := ∅ |}.

Definition withForms (forms : list (option FormInstance)) (s : State) : State :=
  {| formDataRef := formDataRef s; formMapRef := formMapRef s;
     formArrayRef := forms; formArray := formArray s; loading := loading s;
     innerStep := innerStep s; console := console s;
     currentChanges := currentChanges s; finishCalls := finishCalls s |}.

(** An uncontrolled wizard whose handler settles as [r]. *)
Definition uncontrolled (r : Outcome) : StepsFormProps :=
  {| onFinish := Some (λ _, r); current := None; onCurrentChange := true;
     submitter := None |}.

(** A wizard whose host holds the cursor at [c]. *)
Definition controlled (r : Outcome) (c : Z) : StepsFormProps :=
  {| onFinish := Some (λ _, r); current := Some c; onCurrentChange := true;
     submitter := None |}.

Definition oneStep : State := regForm "only" (cfg "Only") initial.

Definition twoSteps : State :=
  regForm "second" (cfg "Address") (regForm "first" (cfg "Cart") initial).

Definition threeSteps : State :=
  regForm "third" (cfg "Pay") twoSteps.

(** The three-step walk: each step finishes with one field, the cursor is
    advanced in between, and the host's handler settles as [r] at the end. *)
Definition threeStepRun (r : Outcome) : State :=
  let p := uncontrolled r in
  let s0 :=
    withForms [Some (filled {[ "a" := 1%Z ]}); Some (filled {[ "b" := 2%Z ]});
               Some (filled {[ "c" := 3%Z ]})] threeSteps in
  let s1 := (onFormFinish p "first" {[ "a" := 1%Z ]} s0).1 in
  let s2 := (onFormFinish p "second" {[ "b" := 2%Z ]} (nextPage p s1)).1 in
  (onFormFinish p "third" {[ "c" := 3%Z ]} (nextPage p s2)).1.

(** A host that gives the submit button a [loading] of its own. *)
Definition ownLoading (r : Outcome) : StepsFormProps :=
  {| onFinish := Some (λ _, r); current := None; onCurrentChange := false;
     submitter := Some (SubmitterProps (Some false)) |}.

Definition noHandler : StepsFormProps :=
  {| onFinish := None; current := None; onCurrentChange := false;
     submitter := None |}.

(** ** Rendering *)

(** Registrations one after the other. *)
Definition registerAll (regs : list (string * StepFormProps)) (s : State)
    : State :=
  foldl (λ s r, regForm r.1 r.2 s) s regs.

(** A child of the wizard: the [name] prop it may carry, and its props. *)
Record Child := {
  childName : option string;
  childProps : StepFormProps;
}.

(** [itemProps.name || `${index}`]: a missing or empty name falls back on
    the index in decimal. *)
Definition nameOf (index : nat) (item : Child) : string :=
  match childName item with
  | Some n => if decide (n = "") then pretty index else n
  | None => pretty index
  end.

(** The callback of [toArray(props.children).map] in [formDom], without its
    call of [regForm]: the name, the props handed to [regForm], and
    [isShow]. *)
Definition formDomItem (p : StepsFormProps) (s : State) (index : nat)
    (item : Child) : string * StepFormProps * bool :=
  (nameOf index item, childProps item,
   bool_decide (step p s = Z.of_nat index)).

(** [formDom]: every child is registered under its name, in the order of
    the children, and rendered active or not. *)
Definition formDom (p : StepsFormProps) (children : list Child) (s : State)
    : State * list (string * bool) :=
  let items := imap (formDomItem p s) children in
  (registerAll ((λ i, (i.1.1, i.1.2)) <$> items) s,
   (λ i, (i.1.1, i.2)) <$> items).

(** The argument of [stepsRender] in [finalStepsDom], which is also what
    [stepsDom] renders: [{key: item, title: formMapRef.current.get(item)?.title}]
    for every step name. *)
Definition stepItems (s : State) : list (string * option string) :=
  (λ item, (item, title <$> JsMap.get item (formMapRef s))) <$> formArray s.

(** [Math.min(formArray.length * 320, 1160)] *)
Definition stepsMaxWidth (s : State) : Z :=
  Z.min (stepCount s * 320) 1160.

(** The handle behind [formRef]: [formArrayRef.current[step || 0]?.current]. *)
Definition currentForm (p : StepsFormProps) (s : State) : option FormInstance :=
  if bool_decide (step p s < 0)%Z then None
  else formArrayRef s !! Z.to_nat (step p s) ≫= id.

(** [onSubmit]: [formArrayRef.current[step]] is read without a guard, so a
    cursor that has no slot throws; a slot whose ref is empty is skipped by
    [?.]; otherwise the form is asked to submit.  The array is a list here:
    every index below its length has a slot. *)
Inductive SubmitOutcome :=
  | Submits (form : FormInstance)
  | NoForm
  | ThrowsTypeError.

Definition onSubmit (p : StepsFormProps) (s : State) : SubmitOutcome :=
  if bool_decide (step p s < 0)%Z then ThrowsTypeError
  else
    match formArrayRef s !! Z.to_nat (step p s) with
    | None => ThrowsTypeError
    | Some None => NoForm
    | Some (Some form) => Submits form
    end.

(** The registry as [regForm] alone keeps it: the list of step names is
    the key list of the configuration map. *)
Definition inSync (s : State) : Prop :=
  formArray s = JsMap.keys (formMapRef s).

(** Whenever the flag is up, an invocation of the handler is pending. *)
Definition flagHasCause (c : Config) : Prop :=
  loading c.1 = true → c.2 ≠ [].

(** * Properties *)

(** ** Insertion-ordered maps *)
Module JsMapFacts.
Import JsMap.
Section Facts.
Context {V : Type}.
Implicit Types (m : JsMap.t V) (k : string) (v : V).

Lemma has_keys k m : has k m = true ↔ k ∈ keys m.
Proof.
  unfold keys. induction m as [|[k' v'] m IH]; simpl.
  - split; [discriminate | by intros ?%elem_of_nil].
  - rewrite elem_of_cons. case_decide; subst; [tauto|].
    rewrite IH. split; [auto | intros [->|?]; [done | auto]].
Qed.

Lemma has_false_keys k m : has k m = false ↔ k ∉ keys m.
Proof. rewrite <- has_keys. destruct (has k m); split; congruence. Qed.

Lemma has_get k m : has k m = true ↔ is_Some (get k m).
Proof.
  induction m as [|[k' v'] m IH]; simpl.
  - split; [discriminate | by intros [? ?]].
  - case_decide; [split; eauto | exact IH].
Qed.

Lemma get_set_eq k v m : get k (set k v m) = Some v.
Proof.
  induction m as [|[k' v'] m IH]; simpl.
  - by rewrite decide_True.
  - case_decide; simpl; [by rewrite decide_True | by rewrite decide_False].
Qed.

Lemma get_set_ne k k' v m : k ≠ k' → get k' (set k v m) = get k' m.
Proof.
  intros Hne. induction m as [|[k0 v0] m IH]; simpl.
  - by rewrite decide_False.
  - destruct (decide (k0 = k)) as [->|]; simpl.
    + by rewrite !decide_False.
    + case_decide; [done | exact IH].
Qed.

Lemma keys_set k v m :
  keys (set k v m) = if has k m then keys m else keys m ++ [k].
Proof.
  unfold keys. induction m as [|[k' v'] m IH]; simpl; [done|].
  case_decide; subst; rewrite !fmap_cons; simpl; [done|].
  rewrite IH. by destruct (has k m).
Qed.

Lemma length_set k v m :
  length (set k v m) = if has k m then length m else S (length m).
Proof.
  induction m as [|[k' v'] m IH]; simpl; [done|].
  case_decide; simpl; [done|]. rewrite IH. by destruct (has k m).
Qed.

Lemma set_set k v v' m : set k v' (set k v m) = set k v' m.
Proof.
  induction m as [|[k' v0] m IH]; simpl.
  - by rewrite decide_True.
  - case_decide; simpl.
    + by rewrite decide_True.
    + rewrite decide_False by done. by rewrite IH.
Qed.

Lemma has_set k v m : has k (set k v m) = true.
Proof. apply has_get. rewrite get_set_eq. eauto. Qed.

Lemma get_delete_eq k m : get k (delete k m) = None.
Proof.
  induction m as [|[k' v'] m IH]; simpl; [done|].
  case_decide; simpl; [done|]. by rewrite decide_False.
Qed.

Lemma get_delete_ne k k' m : k ≠ k' → get k' (delete k m) = get k' m.
Proof.
  intros Hne. induction m as [|[k0 v0] m IH]; simpl; [done|].
  destruct (decide (k0 = k)) as [->|]; simpl.
  - by rewrite decide_False.
  - case_decide; [done | exact IH].
Qed.

Lemma keys_delete k m : keys (delete k m) = filter (λ n, n ≠ k) (keys m).
Proof.
  unfold keys. induction m as [|[k' v'] m IH]; [done|].
  cbn [delete]. rewrite fmap_cons. cbn [fst].
  case_decide; subst.
  - rewrite filter_cons_False by (cbn; tauto). exact IH.
  - rewrite fmap_cons, filter_cons_True by done. cbn [fst]. by rewrite IH.
Qed.

Lemma delete_delete k m : delete k (delete k m) = delete k m.
Proof.
  induction m as [|[k' v'] m IH]; simpl; [done|].
  case_decide; simpl; [done|]. by rewrite decide_False, IH.
Qed.

Lemma has_delete k m : has k (delete k m) = false.
Proof.
  destruct (has k (delete k m)) eqn:E; [|done].
  apply has_get in E. rewrite get_delete_eq in E. by destruct E.
Qed.
End Facts.
End JsMapFacts.

Example merge_example :
  merge ∅ [ {[ "x" := 1%Z ]}; {[ "x" := 2%Z; "y" := 3%Z ]} ]
  = ({[ "x" := 2%Z; "y" := 3%Z ]} : Values).
Proof. vm_compute. reflexivity. Qed.

(** ** Step registry *)

Lemma formArray_threeSteps : formArray threeSteps = ["first"; "second"; "third"].
Proof. reflexivity. Qed.

Lemma stepCount_regForm (name : string) (c : StepFormProps) (s : State) :
  stepCount (regForm name c s)
  = (if JsMap.has name (formMapRef s) then stepCount s else stepCount s + 1)%Z.
Proof.
  unfold stepCount, regForm. cbn [formArray].
  destruct (JsMap.has name (formMapRef s)); [done|].
  rewrite length_app. cbn. lia.
Qed.

Lemma validCursor_regForm (p : StepsFormProps) (name : string)
    (c : StepFormProps) (s : State) :
  validCursor p s → validCursor p (regForm name c s).
Proof.
  unfold validCursor. rewrite stepCount_regForm.
  change (step p (regForm name c s)) with (step p s).
  cbn [regForm formArray].
  destruct (JsMap.has name (formMapRef s)); [done|].
  intros [[Hnil H0] | Hr]; right; [|lia].
  unfold stepCount. rewrite Hnil. cbn. lia.
Qed.

(** C6. [regForm] is an idempotent add.  The first registration of a name
    appends it to the list of step names, and one that finds the name in
    the configuration map leaves the list alone; on a registry whose list
    is the key list of the configuration map the name is in the list
    afterwards and list and map stay matched.  Registering the name a
    second time leaves the list of step names, and so the step count and
    the position of the name, as the first registration left them; the
    key order of the configuration map is kept as well, the configuration
    read back is the one of the latest registration, other names keep
    theirs, and a repeat with the same configuration changes nothing at
    all.  From the initial state two registrations of a name give one
    step. *)
Theorem regForm_twice (name : string) (c1 c2 : StepFormProps) (s : State) :
  let s1 := regForm name c1 s in
  let s2 := regForm name c2 s1 in
  formArray s1
    = (if JsMap.has name (formMapRef s) then formArray s
       else formArray s ++ [name])
  ∧ (JsMap.has name (formMapRef s) = false →
       stepCount s1 = (stepCount s + 1)%Z
       ∧ formArray s1 !! length (formArray s) = Some name)
  ∧ (inSync s → name ∈ formArray s1 ∧ inSync s1 ∧ inSync s2)
  ∧ formArray s2 = formArray s1
  ∧ (∀ i, formArray s1 !! i = Some name → formArray s2 !! i = Some name)
  ∧ stepCount s2 = stepCount s1
  ∧ JsMap.keys (formMapRef s2) = JsMap.keys (formMapRef s1)
  ∧ JsMap.get name (formMapRef s2) = Some c2
  ∧ (∀ n, n ≠ name →
       JsMap.get n (formMapRef s2) = JsMap.get n (formMapRef s1))
  ∧ regForm name c1 s1 = s1
  ∧ formArray (regForm name c2 (regForm name c1 initial)) = [name].
Proof.
  intros s1 s2.
  assert (Hhas : JsMap.has name (formMapRef s1) = true)
    by apply JsMapFacts.has_set.
  assert (Harr : formArray s2 = formArray s1).
  { unfold s2, regForm at 1. cbn [formArray]. by rewrite Hhas. }
  assert (Hkeys : JsMap.keys (formMapRef s2) = JsMap.keys (formMapRef s1)).
  { unfold s2, regForm at 1. cbn [formMapRef].
    by rewrite JsMapFacts.keys_set, Hhas. }
  assert (Hsync : inSync s → inSync s1).
  { unfold inSync, s1, regForm. cbn [formArray formMapRef]. intros Hs.
    rewrite JsMapFacts.keys_set, Hs.
    by destruct (JsMap.has name (JsMap.set name c1 (formMapRef s))),
                (JsMap.has name (formMapRef s)). }
  split; [done|]. split; [|split].
  - intros Hfresh. split.
    + unfold s1. by rewrite stepCount_regForm, Hfresh.
    + unfold s1, regForm. cbn [formArray]. rewrite Hfresh.
      by rewrite lookup_app_r, Nat.sub_diag by lia.
  - intros Hs. split; [|split].
    + unfold s1, regForm. cbn [formArray].
      destruct (JsMap.has name (formMapRef s)) eqn:Hh.
      * apply JsMapFacts.has_keys in Hh. by rewrite Hs.
      * apply elem_of_app. right. by apply list_elem_of_singleton.
    + by apply Hsync.
    + unfold inSync. rewrite Harr, Hkeys. by apply Hsync.
  - split; [exact Harr|]. split; [by rewrite Harr|].
    split; [unfold stepCount; by rewrite Harr|].
    split; [exact Hkeys|].
    split; [apply JsMapFacts.get_set_eq|].
    split; [intros n Hn; by apply JsMapFacts.get_set_ne|].
    split.
    + unfold regForm at 1. rewrite Hhas. unfold s1, regForm. cbn.
      by rewrite JsMapFacts.set_set.
    + cbn. by rewrite decide_True.
Qed.

(** A first registration appends the name. *)
Lemma regForm_fresh (name : string) (c : StepFormProps) (s : State) :
  JsMap.has name (formMapRef s) = false →
  formArray (regForm name c s) = formArray s ++ [name].
Proof. intros H. unfold regForm. cbn. by rewrite H. Qed.

(** What [unRegForm] leaves in the list of step names: the entries equal to
    the name, and nothing else. *)
Lemma unRegForm_formArray (name n : string) (s : State) :
  n ∈ formArray (unRegForm name s) ↔ n = name ∧ n ∈ formArray s.
Proof. unfold unRegForm. cbn. by rewrite list_elem_of_filter. Qed.

Lemma unRegForm_data (name : string) (s : State) :
  JsMap.get name (formDataRef (unRegForm name s)) = None
  ∧ ∀ n, n ≠ name →
      JsMap.get n (formDataRef (unRegForm name s)) = JsMap.get n (formDataRef s).
Proof.
  split; [apply JsMapFacts.get_delete_eq|].
  intros n Hn. by apply JsMapFacts.get_delete_ne.
Qed.

Lemma reRegister_no_data (name : string) (c : StepFormProps) (s : State) :
  JsMap.get name (formDataRef (regForm name c (unRegForm name s))) = None.
Proof. apply JsMapFacts.get_delete_eq. Qed.

(** C3. Deregistering the second of three steps: the aggregated data of
    that step go and the other steps keep theirs, but the list of step
    names is left holding the deregistered name alone, where the other two
    names were to stay. *)
Theorem unRegForm_second_of_three :
  let s := finishAll noHandler
             [("first", {[ "a" := 1%Z ]}); ("second", {[ "b" := 2%Z ]})]
             threeSteps in
  formArray s = ["first"; "second"; "third"]
  ∧ formArray (unRegForm "second" s) = ["second"]
  ∧ formArray (unRegForm "second" s) ≠ ["first"; "third"]
  ∧ JsMap.keys (formDataRef (unRegForm "second" s)) = ["first"]
  ∧ stepCount (unRegForm "second" s) = 1%Z.
Proof. cbv zeta. repeat split; try reflexivity. discriminate. Qed.

(** ** Navigation *)

Lemma step_setStep (p : StepsFormProps) (v : Z) (s : State) :
  step p (setStep p v s) = match current p with Some c => c | None => v end.
Proof. unfold step. by destruct (current p). Qed.

Lemma formArray_navigate (p : StepsFormProps) (s : State) (n : Nav) :
  formArray (navigate p s n) = formArray s.
Proof.
  destruct n; unfold navigate, nextPage, prePage; by case_bool_decide.
Qed.

Lemma stepCount_navigate (p : StepsFormProps) (s : State) (n : Nav) :
  stepCount (navigate p s n) = stepCount s.
Proof. unfold stepCount. by rewrite formArray_navigate. Qed.

Lemma step_navigate (p : StepsFormProps) (s : State) (n : Nav) :
  (Z.abs (step p (navigate p s n) - step p s) ≤ 1)%Z.
Proof.
  destruct n; unfold navigate, nextPage, prePage; case_bool_decide;
    rewrite ?step_setStep; try lia;
    unfold step; destruct (current p); lia.
Qed.

Lemma validCursor_setStep (p : StepsFormProps) (v : Z) (s : State) :
  validCursor p (setStep p v s) ↔
  (formArray s = [] ∧ step p (setStep p v s) = 0%Z)
  ∨ (0 ≤ step p (setStep p v s) < stepCount s)%Z.
Proof. reflexivity. Qed.

Lemma validCursor_navigate (p : StepsFormProps) (s : State) (n : Nav) :
  validCursor p s → validCursor p (navigate p s n).
Proof.
  intros Hv.
  destruct n; unfold navigate, nextPage, prePage;
    case_bool_decide as Hb; try done;
    rewrite validCursor_setStep, step_setStep;
    unfold validCursor, step in *; destruct (current p); try done;
    right; (destruct Hv as [[Hnil H0] | Hv];
            [assert (stepCount s = 0%Z) by (unfold stepCount; by rewrite Hnil) |]);
    lia.
Qed.

Lemma nextPage_at_end (p : StepsFormProps) (s : State) :
  (stepCount s - 1 ≤ step p s)%Z → nextPage p s = s.
Proof. intros H. unfold nextPage. rewrite bool_decide_true; [done | lia]. Qed.

Lemma prePage_at_start (p : StepsFormProps) (s : State) :
  (step p s ≤ 0)%Z → prePage p s = s.
Proof. intros H. unfold prePage. rewrite bool_decide_true; [done | lia]. Qed.

Lemma validCursor_applyOp (p : StepsFormProps) (s : State) (op : CursorOp) :
  validCursor p s → validCursor p (applyOp p s op).
Proof.
  destruct op as [n | name c]; cbn [applyOp].
  - apply validCursor_navigate.
  - apply validCursor_regForm.
Qed.

Lemma validCursor_ops (p : StepsFormProps) (ops : list CursorOp) (s : State) :
  validCursor p s → validCursor p (foldl (applyOp p) s ops).
Proof.
  revert s. induction ops as [|op ops IH]; intros s Hv; [done|].
  cbn [foldl]. apply IH. by apply validCursor_applyOp.
Qed.

(** C5, as the code has it.  A cursor that indexes the list of step names
    (or is 0 when the list is empty) still does after any sequence of
    [nextPage] / [prePage] calls, also when registrations come in between,
    and the page changes leave the step count alone; a wizard that owns
    its cursor has such a cursor after any such sequence from the initial
    state.  From any cursor, valid or not: a single call moves it by at
    most 1; [nextPage] at the last step or beyond and [prePage] at 0 or
    below leave the state as it is; [nextPage] at the last step or beyond
    can be repeated any number of times without effect; and when the
    wizard owns the cursor the calls inside the bounds move it by exactly
    one. *)
Theorem navigation_in_bounds (p : StepsFormProps) (s : State) (navs : list Nav) :
  (validCursor p s → validCursor p (foldl (navigate p) s navs))
  ∧ (∀ ops, validCursor p s → validCursor p (foldl (applyOp p) s ops))
  ∧ (current p = None → ∀ ops, validCursor p (foldl (applyOp p) initial ops))
  ∧ stepCount (foldl (navigate p) s navs) = stepCount s
  ∧ (∀ n, Z.abs (step p (navigate p s n) - step p s) ≤ 1)%Z
  ∧ ((stepCount s - 1 ≤ step p s)%Z → nextPage p s = s)
  ∧ ((step p s ≤ 0)%Z → prePage p s = s)
  ∧ ((stepCount s - 1 ≤ step p s)%Z →
       ∀ k : nat, Nat.iter k (nextPage p) s = s)
  ∧ (current p = None → (step p s < stepCount s - 1)%Z →
       step p (nextPage p s) = (step p s + 1)%Z)
  ∧ (current p = None → (0 < step p s)%Z →
       step p (prePage p s) = (step p s - 1)%Z).
Proof.
  split; [|split; [|split; [|split]]]; [| | | |repeat split].
  - revert s. induction navs as [|n navs IH]; intros s Hv; [done|].
    simpl. apply IH. by apply validCursor_navigate.
  - intros ops. apply validCursor_ops.
  - intros Hc ops. apply validCursor_ops.
    left. split; [done|]. unfold step. by rewrite Hc.
  - revert s. induction navs as [|n navs IH]; intros s; [done|].
    simpl. by rewrite IH, stepCount_navigate.
  - intros n. apply step_navigate.
  - apply nextPage_at_end.
  - apply prePage_at_start.
  - intros Hlast k. induction k as [|k IH]; [done|].
    simpl. rewrite IH. by apply nextPage_at_end.
  - intros Hc Hlt. unfold nextPage. rewrite bool_decide_false by lia.
    by rewrite step_setStep, Hc.
  - intros Hc Hlt. unfold prePage. rewrite bool_decide_false by lia.
    by rewrite step_setStep, Hc.
Qed.

Lemma navigation_in_bounds_witness :
  let navs := [GoNext; GoNext; GoNext; GoPrevious; GoNext; GoNext] in
  validCursor noHandler threeSteps
  ∧ validCursor noHandler (foldl (navigate noHandler) threeSteps navs)
  ∧ stepCount (foldl (navigate noHandler) threeSteps navs) = stepCount threeSteps.
Proof.
  intros navs.
  assert (Hv : validCursor noHandler threeSteps)
    by (right; change (0 ≤ 0 < 3)%Z; lia).
  destruct (navigation_in_bounds noHandler threeSteps navs)
    as (Hnav & _ & _ & Hcount & _).
  split; [exact Hv|]. split; [by apply Hnav | exact Hcount].
Defined.

(** C5, as stated, fails: the cursor is not always an index.
    [unRegForm] never sets the cursor, so deregistering a step while the
    cursor is on the third of three steps leaves cursor 2 over a list of
    one name; and a cursor the host controls is whatever the host gives,
    5 over three steps here. *)
Lemma unRegForm_strands_cursor :
  let p := noHandler in
  let s := nextPage p (nextPage p threeSteps) in
  validCursor p s
  ∧ step p (unRegForm "third" s) = 2%Z
  ∧ stepCount (unRegForm "third" s) = 1%Z
  ∧ ¬ validCursor p (unRegForm "third" s)
  ∧ ¬ validCursor (controlled (Resolved None) 5) threeSteps.
Proof.
  cbv zeta. split; [right; change (0 ≤ 2 < 3)%Z; lia|].
  split; [reflexivity|]. split; [reflexivity|]. split.
  - intros [[Hnil _] | Hr]; [discriminate Hnil|].
    change (0 ≤ 2 < 1)%Z in Hr. lia.
  - intros [[Hnil _] | Hr]; [discriminate Hnil|].
    change (0 ≤ 5 < 3)%Z in Hr. lia.
Qed.

(** ** Action buttons *)

(** C8, as the code has it.  The test for the first step comes first: at
    cursor 0 the buttons are [next] alone, also when that step is the only
    one; past it, the last step has [pre] and [submit] and every other step
    [pre] and [next].  The choice reads nothing but the cursor and the step
    count. *)
Theorem getActionButton_by_position (p : StepsFormProps) (s : State) :
  (0 ≤ step p s < stepCount s)%Z →
  (step p s = 0%Z → getActionButton p s = [BtnNext])
  ∧ ((0 < step p s)%Z → step p s = (stepCount s - 1)%Z →
       getActionButton p s = [BtnPre; BtnSubmit])
  ∧ ((0 < step p s < stepCount s - 1)%Z →
       getActionButton p s = [BtnPre; BtnNext])
  ∧ (∀ p' s', step p' s' = step p s → stepCount s' = stepCount s →
       getActionButton p' s' = getActionButton p s).
Proof.
  intros Hrange. unfold getActionButton. repeat split.
  - intros H0. rewrite bool_decide_true; [done | lia].
  - intros Hpos Hlast. rewrite bool_decide_false by lia.
    rewrite bool_decide_true; [done | lia].
  - intros Hmid. rewrite !bool_decide_false by lia. done.
  - intros p' s' -> ->. done.
Qed.

Lemma getActionButton_by_position_witness :
  (0 ≤ step noHandler (nextPage noHandler threeSteps)
     < stepCount (nextPage noHandler threeSteps))%Z
  ∧ getActionButton noHandler (nextPage noHandler threeSteps) = [BtnPre; BtnNext].
Proof.
  assert (H : (0 ≤ step noHandler (nextPage noHandler threeSteps)
                 < stepCount (nextPage noHandler threeSteps))%Z)
    by (change (0 ≤ 1 < 3)%Z; lia).
  split; [exact H|].
  destruct (getActionButton_by_position noHandler _ H) as (_ & _ & Hmid & _).
  apply Hmid. change (0 < 1 < 3 - 1)%Z. lia.
Defined.

(** C8, as stated, fails for a wizard of one step: its only step is both
    first and last, and the buttons are [next] alone, not [pre] and
    [submit]. *)
Lemma one_step_wizard_shows_next :
  step noHandler oneStep = 0%Z
  ∧ stepCount oneStep = 1%Z
  ∧ lastStep noHandler oneStep = true
  ∧ getActionButton noHandler oneStep = [BtnNext]
  ∧ getActionButton noHandler oneStep ≠ [BtnPre; BtnSubmit].
Proof. repeat split; try reflexivity. discriminate. Qed.

(** ** Aggregation and final submission *)

Lemma onFormFinish_begin_final (p : StepsFormProps) (name : string)
    (formData : Values) (s : State) (handler : Values -> Outcome) :
  lastStep p s = true → onFinish p = Some handler →
  let values := merge ∅ (JsMap.values (JsMap.set name formData (formDataRef s))) in
  onFormFinish_begin p name formData s
  = (callFinish values (setLoading true (storeData name formData s)), Some values).
Proof.
  intros Hlast Hh values. unfold onFormFinish_begin.
  change (lastStep p (storeData name formData s)) with (lastStep p s).
  by rewrite Hlast, Hh.
Qed.

Lemma onFormFinish_begin_other (p : StepsFormProps) (name : string)
    (formData : Values) (s : State) :
  lastStep p s = false ∨ onFinish p = None →
  onFormFinish_begin p name formData s = (storeData name formData s, None).
Proof.
  intros H. unfold onFormFinish_begin.
  change (lastStep p (storeData name formData s)) with (lastStep p s).
  destruct H as [-> | ->]; [done|]. by rewrite orb_true_r.
Qed.

(** No path through the settlement touches the aggregated data, and every
    path ends with the flag down and the error, if any, dealt with. *)
Lemma onFormFinish_settle_always (p : StepsFormProps) (r : Outcome) (s : State) :
  formDataRef (onFormFinish_settle p r s).1 = formDataRef s
  ∧ loading (onFormFinish_settle p r s).1 = false
  ∧ (onFormFinish_settle p r s).2 = None
  ∧ formArray (onFormFinish_settle p r s).1 = formArray s
  ∧ finishCalls (onFormFinish_settle p r s).1 = finishCalls s.
Proof. destruct r as [[[|]|]|e]; done. Qed.

(** Whatever the props and the outcome, a call of [onFormFinish] changes
    the aggregated data by its one [set]. *)
Lemma formDataRef_onFormFinish (p : StepsFormProps) (name : string)
    (formData : Values) (s : State) :
  formDataRef (onFormFinish p name formData s).1
  = JsMap.set name formData (formDataRef s).
Proof.
  unfold onFormFinish.
  destruct (lastStep p s) eqn:Hlast, (onFinish p) as [h|] eqn:Hh.
  - rewrite (onFormFinish_begin_final _ _ _ _ h) by done.
    by rewrite (proj1 (onFormFinish_settle_always _ _ _)).
  - by rewrite onFormFinish_begin_other by auto.
  - by rewrite onFormFinish_begin_other by auto.
  - by rewrite onFormFinish_begin_other by auto.
Qed.

(** C7. Off the last step, or without a handler, [onFormFinish] stores the
    data under the name and is done: the call ends without error, nothing
    is handed to [onFinish], and cursor, flag, step names, forms,
    configurations, log and the data of the other steps are as before. *)
Theorem onFormFinish_stores_only (p : StepsFormProps) (name : string)
    (formData : Values) (s : State) :
  lastStep p s = false ∨ onFinish p = None →
  let s' := (onFormFinish p name formData s).1 in
  (onFormFinish p name formData s).2 = None
  ∧ (onFormFinish_begin p name formData s).2 = None
  ∧ s' = storeData name formData s
  ∧ JsMap.get name (formDataRef s') = Some formData
  ∧ (∀ n, n ≠ name → JsMap.get n (formDataRef s') = JsMap.get n (formDataRef s))
  ∧ step p s' = step p s
  ∧ innerStep s' = innerStep s
  ∧ loading s' = loading s
  ∧ finishCalls s' = finishCalls s
  ∧ currentChanges s' = currentChanges s
  ∧ console s' = console s
  ∧ formArray s' = formArray s
  ∧ formArrayRef s' = formArrayRef s
  ∧ formMapRef s' = formMapRef s.
Proof.
  intros H s'.
  assert (Hs' : onFormFinish p name formData s = (storeData name formData s, None)).
  { unfold onFormFinish. rewrite onFormFinish_begin_other by done.
    by destruct (onFinish p). }
  unfold s'. rewrite Hs', onFormFinish_begin_other by done. cbn [fst snd].
  repeat split.
  - apply JsMapFacts.get_set_eq.
  - intros n Hn. by apply JsMapFacts.get_set_ne.
Qed.

Lemma onFormFinish_stores_only_witness :
  lastStep (uncontrolled (Resolved (Some true))) threeSteps = false
  ∧ step (uncontrolled (Resolved (Some true)))
      (onFormFinish (uncontrolled (Resolved (Some true))) "first"
         {[ "a" := 1%Z ]} threeSteps).1 = 0%Z.
Proof.
  split; [reflexivity|].
  pose proof (onFormFinish_stores_only (uncontrolled (Resolved (Some true)))
                "first" {[ "a" := 1%Z ]} threeSteps (or_introl eq_refl)) as H.
  cbv zeta in H. destruct H as (_ & _ & _ & _ & _ & -> & _). reflexivity.
Defined.

Lemma resetRef_lookup (forms : list (option FormInstance)) (i : nat)
    (f : FormInstance) :
  forms !! i = Some (Some f) →
  (resetRef <$> forms) !! i = Some (Some (resetFields f)).
Proof. intros H. by rewrite list_lookup_fmap, H. Qed.

(** C1, as the code has it.  On the last step, with a handler that resolves
    to [true]: the handler receives the merge of the aggregated data, the
    inner cursor is set to 0 (which is the cursor unless the host controls
    it, and then the host is told when its value is not 0), every form held
    in [formArrayRef] has its fields reset, the flag ends down and the call
    ends without error.  The aggregated data are not cleared: they are what
    they were plus the data just stored. *)
Theorem onFormFinish_success (p : StepsFormProps) (name : string)
    (formData : Values) (s : State) (handler : Values -> Outcome) :
  lastStep p s = true →
  onFinish p = Some handler →
  let values :=
    merge ∅ (JsMap.values (JsMap.set name formData (formDataRef s))) in
  handler values = Resolved (Some true) →
  let s' := (onFormFinish p name formData s).1 in
  finishCalls s' = finishCalls s ++ [values]
  ∧ innerStep s' = 0%Z
  ∧ (current p = None → step p s' = 0%Z)
  ∧ currentChanges s'
    = (if bool_decide (step p s ≠ 0%Z) && onCurrentChange p
       then currentChanges s ++ [0%Z] else currentChanges s)
  ∧ formArrayRef s' = resetRef <$> formArrayRef s
  ∧ (∀ i f, formArrayRef s !! i = Some (Some f) →
       ∃ f', formArrayRef s' !! i = Some (Some f')
             ∧ fieldsValue f' = initialValues f)
  ∧ formDataRef s' = JsMap.set name formData (formDataRef s)
  ∧ JsMap.get name (formDataRef s') = Some formData
  ∧ loading s' = false
  ∧ (onFormFinish p name formData s).2 = None
  ∧ formArray s' = formArray s.
Proof.
  intros Hlast Hh values Hres s'.
  assert (Hs' : onFormFinish p name formData s
    = onFormFinish_settle p (Resolved (Some true))
        (callFinish values (setLoading true (storeData name formData s)))).
  { unfold onFormFinish.
    rewrite (onFormFinish_begin_final _ _ _ _ handler), Hh by done.
    fold values. by rewrite Hres. }
  unfold s'. rewrite Hs'. cbn.
  repeat split.
  - intros Hc. unfold step. by rewrite Hc.
  - intros i f Hi. exists (resetFields f). split; [|done].
    by apply resetRef_lookup.
  - apply JsMapFacts.get_set_eq.
Qed.

Lemma onFormFinish_success_witness :
  let p := uncontrolled (Resolved (Some true)) in
  let s := nextPage p (nextPage p threeSteps) in
  lastStep p s = true
  ∧ step p (onFormFinish p "third" {[ "c" := 3%Z ]} s).1 = 0%Z.
Proof.
  intros p s. split; [reflexivity|].
  apply (onFormFinish_success p "third" {[ "c" := 3%Z ]} s (λ _, Resolved (Some true)));
    reflexivity.
Defined.

(** C1, as stated, fails on the three-step walk with a handler that
    resolves to [true]: the handler gets the merged record, the cursor is
    back at 0 and the forms are reset, but the aggregated data still hold
    the three entries. *)
Lemma success_keeps_aggregated_data :
  let s := threeStepRun (Resolved (Some true)) in
  finishCalls s = [ {[ "a" := 1%Z; "b" := 2%Z; "c" := 3%Z ]} ]
  ∧ step (uncontrolled (Resolved (Some true))) s = 0%Z
  ∧ formArrayRef s = [Some blank; Some blank; Some blank]
  ∧ formDataRef s
    = [("first", {[ "a" := 1%Z ]}); ("second", {[ "b" := 2%Z ]});
       ("third", {[ "c" := 3%Z ]})]
  ∧ formDataRef s ≠ JsMap.empty.
Proof.
  cbv zeta. repeat split; try (vm_compute; reflexivity). discriminate.
Qed.

(** C2. On the last step, with a handler that resolves to a falsy value or
    rejects: the cursor stays on the last step, the aggregated data are the
    ones stored, forms and step names are untouched, a rejection is logged
    and nothing else is, the call itself ends without error, and the flag
    is down.  The flag ends down and the call ends without error for every
    outcome from every state. *)
Theorem onFormFinish_failure (p : StepsFormProps) (name : string)
    (formData : Values) (s : State) (handler : Values -> Outcome) :
  lastStep p s = true →
  onFinish p = Some handler →
  let values :=
    merge ∅ (JsMap.values (JsMap.set name formData (formDataRef s))) in
  failed (handler values) →
  let s' := (onFormFinish p name formData s).1 in
  step p s' = step p s
  ∧ lastStep p s' = true
  ∧ innerStep s' = innerStep s
  ∧ currentChanges s' = currentChanges s
  ∧ formDataRef s' = JsMap.set name formData (formDataRef s)
  ∧ formArrayRef s' = formArrayRef s
  ∧ formArray s' = formArray s
  ∧ console s' = console s ++ logged (handler values)
  ∧ (onFormFinish p name formData s).2 = None
  ∧ loading s' = false
  ∧ (∀ r s0, loading (onFormFinish_settle p r s0).1 = false
             ∧ (onFormFinish_settle p r s0).2 = None).
Proof.
  intros Hlast Hh values Hfail s'.
  assert (Hs' : onFormFinish p name formData s
    = onFormFinish_settle p (handler values)
        (callFinish values (setLoading true (storeData name formData s)))).
  { unfold onFormFinish.
    by rewrite (onFormFinish_begin_final _ _ _ _ handler), Hh by done. }
  assert (Hall : ∀ r s0, loading (onFormFinish_settle p r s0).1 = false
                         ∧ (onFormFinish_settle p r s0).2 = None).
  { intros r s0. destruct (onFormFinish_settle_always p r s0) as (_ & ? & ? & _).
    done. }
  unfold s'. rewrite Hs'.
  destruct (handler values) as [[[|]|]|e]; [done| | |];
    cbn; rewrite ?app_nil_r; repeat split; try done; apply Hall.
Qed.

Lemma onFormFinish_failure_witness :
  let p := uncontrolled (Rejected "network down") in
  let s := nextPage p (nextPage p threeSteps) in
  lastStep p s = true
  ∧ failed (Rejected "network down")
  ∧ loading (onFormFinish p "third" {[ "c" := 3%Z ]} s).1 = false.
Proof.
  intros p s. split; [reflexivity|]. split; [exact I|].
  apply (onFormFinish_failure p "third" {[ "c" := 3%Z ]} s
           (λ _, Rejected "network down")); [reflexivity | reflexivity | exact I].
Defined.

(** The second scenario of the specification, evaluated. *)
Lemma handler_throws_scenario :
  let s := threeStepRun (Rejected "boom") in
  step (uncontrolled (Rejected "boom")) s = 2%Z
  ∧ JsMap.keys (formDataRef s) = ["first"; "second"; "third"]
  ∧ merge ∅ (JsMap.values (formDataRef s))
    = {[ "a" := 1%Z; "b" := 2%Z; "c" := 3%Z ]}
  ∧ loading s = false
  ∧ console s = ["boom"].
Proof. cbv zeta. repeat split; vm_compute; reflexivity. Qed.

(** ** Merge order *)

Lemma lookup_merge (target : Values) (vs : list Values) (k : string) :
  merge target vs !! k
  = match lookupLast vs k with
    | Some x => Some x
    | None => target !! k
    end.
Proof.
  revert target. induction vs as [|v vs IH]; intros target; [done|].
  change (merge target (v :: vs)) with (merge (v ∪ target) vs).
  rewrite IH. simpl. destruct (lookupLast vs k); [done|].
  rewrite lookup_union. by destruct (v !! k), (target !! k).
Qed.

Lemma keys_finishAll (p : StepsFormProps) (finishes : list (string * Values))
    (s : State) :
  JsMap.keys (formDataRef (finishAll p finishes s))
  = JsMap.keys (formDataRef s)
    ++ filter (λ n, n ∉ JsMap.keys (formDataRef s))
         (firstFinishOrder finishes.*1).
Proof.
  revert s. induction finishes as [|[n d] fs IH]; intros s.
  - simpl. by rewrite filter_nil, app_nil_r.
  - change (finishAll p ((n, d) :: fs) s)
      with (finishAll p fs (onFormFinish p n d s).1).
    rewrite IH, formDataRef_onFormFinish, JsMapFacts.keys_set.
    rewrite fmap_cons. cbn [fst firstFinishOrder].
    destruct (JsMap.has n (formDataRef s)) eqn:Hhas.
    + apply JsMapFacts.has_keys in Hhas.
      rewrite filter_cons_False by (intros Hn; by apply Hn).
      rewrite list_filter_filter. f_equal. apply list_filter_iff.
      intros x. split; [|tauto]. intros Hx. split; [done|]. by intros ->.
    + apply JsMapFacts.has_false_keys in Hhas.
      rewrite filter_cons_True by done.
      rewrite <- app_assoc. f_equal. simpl. f_equal.
      rewrite list_filter_filter. apply list_filter_iff.
      intros x. rewrite elem_of_app, list_elem_of_singleton. tauto.
Qed.

Lemma filter_all {A} (P : A → Prop) `{!∀ x, Decision (P x)} (l : list A) :
  (∀ x, P x) → filter P l = l.
Proof.
  intros HP. induction l as [|x l IH]; [done|].
  rewrite filter_cons_True by done. by rewrite IH.
Qed.

Lemma filter_all_in {A} (P : A → Prop) `{!∀ x, Decision (P x)} (l : list A) :
  (∀ x, x ∈ l → P x) → filter P l = l.
Proof.
  induction l as [|x l IH]; intros HP; [done|].
  rewrite filter_cons_True by (apply HP; left).
  rewrite IH; [done|]. intros y Hy. apply HP. by right.
Qed.

Lemma keys_finishAll_initial (p : StepsFormProps)
    (finishes : list (string * Values)) :
  JsMap.keys (formDataRef (finishAll p finishes initial))
  = firstFinishOrder finishes.*1.
Proof.
  rewrite keys_finishAll. simpl. apply filter_all.
  intros x. apply not_elem_of_nil.
Qed.

(** C4, as the code has it.  On final submission the handler receives the
    merge of the aggregated entries taken in the order in which the map
    holds them, the order in which the steps finished for the first time;
    the merge is last-wins over that order, field by field; and two steps
    finishing in the order first [{x:1}] then second [{x:2, y:3}] give
    [{x:2, y:3}]. *)
Theorem merge_in_map_order (p : StepsFormProps) (name : string)
    (formData : Values) (s : State) (handler : Values -> Outcome) :
  lastStep p s = true →
  onFinish p = Some handler →
  let entries := JsMap.set name formData (formDataRef s) in
  (onFormFinish_begin p name formData s).2
    = Some (merge ∅ (JsMap.values entries))
  ∧ (∀ k, merge ∅ (JsMap.values entries) !! k
          = lookupLast (JsMap.values entries) k)
  ∧ (∀ finishes, JsMap.keys (formDataRef (finishAll p finishes initial))
                 = firstFinishOrder finishes.*1)
  ∧ (let q := uncontrolled (Resolved None) in
     let s1 := (onFormFinish q "first" {[ "x" := 1%Z ]} twoSteps).1 in
     finishCalls
       (onFormFinish q "second" {[ "x" := 2%Z; "y" := 3%Z ]} (nextPage q s1)).1
     = [ {[ "x" := 2%Z; "y" := 3%Z ]} ]).
Proof.
  intros Hlast Hh entries. split; [|split; [|split]].
  - by rewrite (onFormFinish_begin_final _ _ _ _ handler) by done.
  - intros k. rewrite lookup_merge, lookup_empty.
    by destruct (lookupLast _ k).
  - apply keys_finishAll_initial.
  - vm_compute. reflexivity.
Qed.

Lemma merge_in_map_order_witness :
  let p := uncontrolled (Resolved None) in
  let s := nextPage p (onFormFinish p "first" {[ "x" := 1%Z ]} twoSteps).1 in
  lastStep p s = true
  ∧ (onFormFinish_begin p "second" {[ "x" := 2%Z; "y" := 3%Z ]} s).2
    = Some (merge ∅ (JsMap.values
              (JsMap.set "second" {[ "x" := 2%Z; "y" := 3%Z ]} (formDataRef s)))).
Proof.
  intros p s. split; [reflexivity|].
  apply (merge_in_map_order p "second" {[ "x" := 2%Z; "y" := 3%Z ]} s
           (λ _, Resolved None)); reflexivity.
Defined.

(** C4, as stated, fails when the steps do not finish in the order of
    their registration.  The host opens the two-step wizard on its second
    step, whose submission the handler turns down; the user goes back,
    finishes the first step and submits the second again.  The first step,
    registered earlier, has finished later, and its [x] replaces the [x] of
    the second. *)
Lemma earlier_registered_overrides :
  let r := Resolved (Some false) in
  let s1 := (onFormFinish (controlled r 1) "second"
               {[ "x" := 2%Z; "y" := 3%Z ]} twoSteps).1 in
  let s2 := (onFormFinish (controlled r 0) "first" {[ "x" := 1%Z ]} s1).1 in
  let s3 := (onFormFinish (controlled r 1) "second"
               {[ "x" := 2%Z; "y" := 3%Z ]} s2).1 in
  formArray s3 = ["first"; "second"]
  ∧ JsMap.keys (formDataRef s3) = ["second"; "first"]
  ∧ last (finishCalls s3) = Some {[ "x" := 1%Z; "y" := 3%Z ]}
  ∧ last (finishCalls s3) ≠ Some {[ "x" := 2%Z; "y" := 3%Z ]}.
Proof.
  cbv zeta. repeat split; try (vm_compute; reflexivity).
  vm_compute. discriminate.
Qed.

(** C10. A second finish under a name that already has data replaces the
    data and keeps the name where it is in the map, next to the untouched
    entries of the other names; from the empty map, any sequence of
    finishes leaves the names in the order of their first finish; that is
    the order of the values handed to the merge on final submission; and it
    is neither the order of the most recent finishes nor the order of
    registration, as the run second, first, second shows. *)
Theorem refinish_keeps_position (p : StepsFormProps) (name : string)
    (formData : Values) (s : State) :
  JsMap.has name (formDataRef s) = true →
  let s' := (onFormFinish p name formData s).1 in
  JsMap.keys (formDataRef s') = JsMap.keys (formDataRef s)
  ∧ JsMap.get name (formDataRef s') = Some formData
  ∧ (∀ n, n ≠ name → JsMap.get n (formDataRef s') = JsMap.get n (formDataRef s))
  ∧ (∀ finishes, JsMap.keys (formDataRef (finishAll p finishes initial))
                 = firstFinishOrder finishes.*1)
  ∧ (∀ handler, lastStep p s = true → onFinish p = Some handler →
       (onFormFinish_begin p name formData s).2
       = Some (merge ∅ (JsMap.values (formDataRef s'))))
  ∧ (let finishes :=
       [("second", {[ "x" := 2%Z ]}); ("first", {[ "x" := 1%Z ]});
        ("second", {[ "x" := 3%Z ]})] in
     let t := finishAll noHandler finishes twoSteps in
     JsMap.keys (formDataRef t) = ["second"; "first"]
     ∧ JsMap.values (formDataRef t) = [ {[ "x" := 3%Z ]}; {[ "x" := 1%Z ]} ]
     ∧ lastFinishOrder finishes.*1 = ["first"; "second"]
     ∧ formArray t = ["first"; "second"]).
Proof.
  intros Hhas s'. unfold s'. rewrite formDataRef_onFormFinish.
  split; [|split; [|split; [|split; [|split]]]].
  - by rewrite JsMapFacts.keys_set, Hhas.
  - apply JsMapFacts.get_set_eq.
  - intros n Hn. by apply JsMapFacts.get_set_ne.
  - apply keys_finishAll_initial.
  - intros handler Hlast Hh.
    by rewrite (onFormFinish_begin_final _ _ _ _ handler) by done.
  - cbv zeta. repeat split; vm_compute; reflexivity.
Qed.

Lemma refinish_keeps_position_witness :
  let s := finishAll noHandler
             [("first", {[ "x" := 1%Z ]}); ("second", {[ "x" := 2%Z ]})]
             twoSteps in
  JsMap.has "first" (formDataRef s) = true
  ∧ JsMap.keys (formDataRef (onFormFinish noHandler "first" {[ "x" := 5%Z ]} s).1)
    = JsMap.keys (formDataRef s).
Proof.
  intros s. split; [reflexivity|].
  apply (refinish_keeps_position noHandler "first" {[ "x" := 5%Z ]} s).
  reflexivity.
Defined.

(** ** Re-entrancy *)

Lemma fires_primaryButton (p : StepsFormProps) (s : State) :
  overridesLoading p = false →
  fires (primaryButton p s) = submitterOn p && negb (loading s).
Proof.
  unfold overridesLoading, primaryButton, getActionButton. intros Hov.
  repeat case_bool_decide; cbn;
    unfold next, submit, submitterOn, submitButtonLoading;
    destruct (submitter p) as [[|[b|]]|]; done.
Qed.

Lemma loading_onFormFinish_begin (p : StepsFormProps) (name : string)
    (formData : Values) (s : State) :
  loading (onFormFinish_begin p name formData s).1
  = match (onFormFinish_begin p name formData s).2 with
    | Some _ => true
    | None => loading s
    end.
Proof. unfold onFormFinish_begin. by destruct (negb _ || negb _). Qed.

Lemma loading_prePage (p : StepsFormProps) (s : State) :
  loading (prePage p s) = loading s.
Proof. unfold prePage. by case_bool_decide. Qed.

Lemma loading_nextPage (p : StepsFormProps) (s : State) :
  loading (nextPage p s) = loading s.
Proof. unfold nextPage. by case_bool_decide. Qed.

Lemma handle_oneAtATime (p : StepsFormProps) (c : Config) (e : Event) :
  overridesLoading p = false → viaButtons e = true →
  oneAtATime c → oneAtATime (handle p c e).
Proof.
  intros Hov Hvia. destruct c as [s pending]. unfold oneAtATime.
  destruct e as [name d|name d|r| |]; cbn [handle fst snd]; intros Hinv.
  - rewrite fires_primaryButton by done.
    destruct (submitterOn p), (loading s) eqn:Hl; cbn [andb negb fst snd];
      rewrite ?Hl; try done.
    destruct pending; [|discriminate].
    unfold report. cbn [fst snd].
    pose proof (loading_onFormFinish_begin p name d s) as Hb.
    destruct (onFormFinish_begin p name d s) as [s1 [v|]];
      cbn [fst snd] in *; by rewrite Hb, ?Hl.
  - discriminate.
  - destruct pending as [|v pending]; [done|]. cbn [fst snd].
    rewrite (proj1 (proj2 (onFormFinish_settle_always p r s))).
    destruct (loading s); [|discriminate].
    by destruct pending.
  - by rewrite loading_prePage.
  - by rewrite loading_nextPage.
Qed.

Lemma run_oneAtATime (p : StepsFormProps) (c : Config) (es : list Event) :
  overridesLoading p = false → forallb viaButtons es = true →
  oneAtATime c → oneAtATime (run p c es).
Proof.
  intros Hov. revert c. induction es as [|e es IH]; intros c Hvia Hinv; [done|].
  simpl in Hvia. apply andb_prop in Hvia as [He Hes].
  change (run p c (e :: es)) with (run p (handle p c e) es).
  apply IH; [done|]. by apply handle_oneAtATime.
Qed.

(** C9, as the code has it.  With a submit button whose [loading] is the
    wizard's flag: while the flag is up a click on next / submit changes
    nothing, in any state, and the next and submit buttons carry the flag
    as their [loading].  When, from an idle wizard, finishes have only
    ever been reported through clicks on the rendered buttons, then after
    any sequence of clicks, page changes and settlements at most one
    invocation of the handler is pending and the flag is up exactly while
    one is.  [onFormFinish] itself does not read the flag: on the last
    step, with a handler, a finish that comes in through [onSubmit] called
    directly starts an invocation whatever the flag and whatever is
    pending. *)
Theorem buttons_cannot_resubmit (p : StepsFormProps) :
  overridesLoading p = false →
  (∀ s pending name formData,
     loading s = true →
     handle p (s, pending) (ClickSubmit name formData) = (s, pending))
  ∧ (∀ s b, next p s = Some b ∨ submit p s = Some b →
            btnLoading b = loading s)
  ∧ (∀ s es,
       loading s = false → forallb viaButtons es = true →
       let c := run p (s, []) es in
       length c.2 ≤ 1 ∧ (loading c.1 = true ↔ length c.2 = 1%nat))
  ∧ (∀ c name formData handler,
       lastStep p c.1 = true → onFinish p = Some handler →
       length (handle p c (CallOnSubmit name formData)).2 = S (length c.2)
       ∧ loading (handle p c (CallOnSubmit name formData)).1 = true).
Proof.
  intros Hov. split; [|split; [|split]].
  - intros s pending name d Hl. cbn [handle fst].
    rewrite fires_primaryButton by done.
    by rewrite Hl, andb_false_r.
  - intros s b. unfold next, submit, submitButtonLoading.
    unfold overridesLoading in Hov.
    destruct (submitterOn p), (submitter p) as [[|[?|]]|];
      try discriminate; intros [[= <-] | [= <-]]; done.
  - intros s es Hidle Hvia c.
    assert (Hinv : oneAtATime c).
    { apply run_oneAtATime; [done | done |].
      unfold oneAtATime. cbn [fst snd]. by rewrite Hidle. }
    unfold oneAtATime in Hinv. split.
    + rewrite Hinv. destruct (loading c.1); lia.
    + rewrite Hinv. destruct (loading c.1); split; done.
  - intros c name d handler Hlast Hh. cbn [handle]. unfold report.
    rewrite (onFormFinish_begin_final _ _ _ _ handler) by done.
    cbn. split; [|done]. rewrite length_app. cbn. lia.
Qed.

Lemma buttons_cannot_resubmit_witness :
  let p := uncontrolled (Resolved (Some true)) in
  let d : Values := {[ "a" := 1%Z ]} in
  let es := [ClickSubmit "only" d; ClickSubmit "only" d; ClickSubmit "only" d] in
  overridesLoading p = false
  ∧ loading oneStep = false
  ∧ forallb viaButtons es = true
  ∧ length (run p (oneStep, []) es).2 ≤ 1.
Proof.
  intros p d es.
  destruct (buttons_cannot_resubmit p eq_refl) as (_ & _ & Hrun & _).
  split; [reflexivity|]. split; [reflexivity|]. split; [reflexivity|].
  apply (Hrun oneStep es); reflexivity.
Defined.

(** C9, as stated, fails: [onFormFinish] does not look at the flag.  While
    one invocation is pending and the flag is up, a finish that comes in
    through [onSubmit] as handed to [submitter.render] starts a second one;
    so does a click on a submit button whose [loading] the host has set
    itself. *)
Lemma second_invocation_while_pending :
  let d : Values := {[ "a" := 1%Z ]} in
  let p := uncontrolled (Resolved (Some true)) in
  let c1 := handle p (oneStep, []) (CallOnSubmit "only" d) in
  let c2 := handle p c1 (CallOnSubmit "only" d) in
  let q := ownLoading (Resolved (Some true)) in
  let c3 := run q (oneStep, []) [ClickSubmit "only" d; ClickSubmit "only" d] in
  loading c1.1 = true
  ∧ length c1.2 = 1%nat
  ∧ length c2.2 = 2%nat
  ∧ length (finishCalls c2.1) = 2%nat
  ∧ loading c3.1 = true
  ∧ length c3.2 = 2%nat.
Proof. cbv zeta. repeat split; vm_compute; reflexivity. Qed.

(** * Further properties of the code *)

(** ** Registrations in sequence *)

Lemma elem_of_firstFinishOrder (names : list string) (n : string) :
  n ∈ firstFinishOrder names ↔ n ∈ names.
Proof.
  induction names as [|m names IH]; [done|].
  cbn [firstFinishOrder]. rewrite !elem_of_cons, list_elem_of_filter, IH.
  destruct (decide (n = m)); tauto.
Qed.

Lemma NoDup_firstFinishOrder (names : list string) :
  NoDup (firstFinishOrder names).
Proof.
  induction names as [|m names IH]; [constructor|].
  cbn [firstFinishOrder]. apply NoDup_cons. split.
  - rewrite list_elem_of_filter. by intros [? _].
  - by apply NoDup_filter.
Qed.

Lemma firstFinishOrder_NoDup (names : list string) :
  NoDup names → firstFinishOrder names = names.
Proof.
  induction 1 as [|m names Hm Hnd IH]; [done|].
  cbn [firstFinishOrder]. rewrite IH. f_equal.
  apply filter_all_in. intros x Hx ->. done.
Qed.

Lemma registerAll_lists (regs : list (string * StepFormProps)) (s : State) :
  let fresh := filter (λ n, n ∉ JsMap.keys (formMapRef s))
                 (firstFinishOrder regs.*1) in
  formArray (registerAll regs s) = formArray s ++ fresh
  ∧ JsMap.keys (formMapRef (registerAll regs s))
    = JsMap.keys (formMapRef s) ++ fresh.
Proof.
  revert s. induction regs as [|[n c] regs IH]; intros s.
  - cbn. by rewrite !app_nil_r.
  - change (registerAll ((n, c) :: regs) s)
      with (registerAll regs (regForm n c s)).
    destruct (IH (regForm n c s)) as [-> ->]. clear IH.
    cbn [regForm formArray formMapRef].
    rewrite JsMapFacts.keys_set, fmap_cons. cbn [fst firstFinishOrder].
    destruct (JsMap.has n (formMapRef s)) eqn:Hhas.
    + apply JsMapFacts.has_keys in Hhas.
      rewrite (filter_cons_False _ n) by (intros Hn; by apply Hn).
      rewrite list_filter_filter.
      assert (Heq : filter (λ x, x ∉ JsMap.keys (formMapRef s))
                      (firstFinishOrder regs.*1)
                    = filter (λ x, (x ∉ JsMap.keys (formMapRef s)) ∧ x ≠ n)
                        (firstFinishOrder regs.*1)).
      { apply list_filter_iff. intros x. split; [|tauto].
        intros Hx. split; [done|]. by intros ->. }
      by rewrite Heq.
    + apply JsMapFacts.has_false_keys in Hhas.
      rewrite (filter_cons_True _ n) by done.
      rewrite list_filter_filter.
      assert (Heq : filter (λ x, x ∉ (JsMap.keys (formMapRef s) ++ [n]))
                      (firstFinishOrder regs.*1)
                    = filter (λ x, (x ∉ JsMap.keys (formMapRef s)) ∧ x ≠ n)
                        (firstFinishOrder regs.*1)).
      { apply list_filter_iff. intros x.
        rewrite elem_of_app, list_elem_of_singleton. tauto. }
      rewrite Heq, <- !app_assoc. done.
Qed.

(** X1. Registration never invalidates the cursor: a cursor that indexes
    the list of step names (or is 0 on the empty list) still does after
    one [regForm], after any sequence of them, and after a pass of
    [formDom] over any children. *)
Theorem registration_keeps_cursor_valid (p : StepsFormProps) (s : State) :
  validCursor p s →
  (∀ name c, validCursor p (regForm name c s))
  ∧ (∀ regs, validCursor p (registerAll regs s))
  ∧ (∀ q children, validCursor p (formDom q children s).1).
Proof.
  intros Hv.
  assert (Hall : ∀ regs s0, validCursor p s0 → validCursor p (registerAll regs s0)).
  { induction regs as [|[n c] regs IH]; intros s0 Hs0; [done|].
    apply (IH (regForm n c s0)). by apply validCursor_regForm. }
  split; [|split].
  - intros name c. by apply validCursor_regForm.
  - intros regs. by apply Hall.
  - intros q children. by apply Hall.
Qed.

Lemma registration_keeps_cursor_valid_witness :
  validCursor noHandler (nextPage noHandler twoSteps)
  ∧ validCursor noHandler
      (regForm "third" (cfg "Pay") (nextPage noHandler twoSteps)).
Proof.
  assert (H : validCursor noHandler (nextPage noHandler twoSteps))
    by (right; change (0 ≤ 1 < 2)%Z; lia).
  split; [exact H|].
  apply (registration_keeps_cursor_valid noHandler _ H).
Defined.

(** X2. Starting from the initial state, after any sequence of
    registrations the list of step names is the key list of the
    configuration map, has no duplicates, lists the registered names in
    the order of their first registration, and contains exactly the names
    that were registered. *)
Theorem registrations_keep_registry_in_sync
    (regs : list (string * StepFormProps)) :
  let s := registerAll regs initial in
  inSync s
  ∧ NoDup (formArray s)
  ∧ formArray s = firstFinishOrder regs.*1
  ∧ (∀ name, name ∈ formArray s ↔ name ∈ regs.*1)
  ∧ (∀ name, JsMap.has name (formMapRef s) = true ↔ name ∈ regs.*1).
Proof.
  intros s. destruct (registerAll_lists regs initial) as [Harr Hkeys].
  fold s in Harr, Hkeys. cbn in Harr, Hkeys.
  rewrite filter_all in Harr, Hkeys by (intros x; apply not_elem_of_nil).
  unfold inSync. rewrite Harr, Hkeys.
  split; [done|]. split; [apply NoDup_firstFinishOrder|]. split; [done|].
  split; intros name.
  - apply elem_of_firstFinishOrder.
  - rewrite JsMapFacts.has_keys, Hkeys. apply elem_of_firstFinishOrder.
Qed.




(** ** Deregistration as written *)

Lemma filter_eq_NoDup (l : list string) (name : string) :
  NoDup l →
  filter (λ n, n = name) l = if bool_decide (name ∈ l) then [name] else [].
Proof.
  induction 1 as [|x l Hx Hnd IH].
  - by rewrite bool_decide_false by apply not_elem_of_nil.
  - destruct (decide (x = name)) as [->|Hne].
    + rewrite filter_cons_True by done.
      rewrite IH, (bool_decide_false (name ∈ l)) by done.
      rewrite bool_decide_true; [done | left].
    + rewrite filter_cons_False by done. rewrite IH.
      apply (f_equal (λ b : bool, if b then [name] else [])).
      apply bool_decide_ext. rewrite elem_of_cons.
      split; [auto | intros [->|?]; done].
Qed.

(** X4. [unRegForm] on a list of distinct step names: the list that is
    left holds the deregistered name alone when it was registered and is
    empty when it was not; the indicator of the name, when it is left, has
    lost its title. *)
Theorem unRegForm_leaves_only_name (name : string) (s : State) :
  NoDup (formArray s) →
  formArray (unRegForm name s)
    = (if bool_decide (name ∈ formArray s) then [name] else [])
  ∧ stepItems (unRegForm name s)
    = (if bool_decide (name ∈ formArray s) then [(name, None)] else [])
  ∧ (stepCount (unRegForm name s) ≤ 1)%Z.
Proof.
  intros Hnd.
  assert (Harr : formArray (unRegForm name s)
                 = if bool_decide (name ∈ formArray s) then [name] else [])
    by (by apply filter_eq_NoDup).
  split; [exact Harr|]. split.
  - unfold stepItems. rewrite Harr.
    destruct (bool_decide (name ∈ formArray s)); [|done].
    cbn [unRegForm formMapRef]. rewrite fmap_cons.
    by rewrite JsMapFacts.get_delete_eq.
  - unfold stepCount. rewrite Harr.
    destruct (bool_decide (name ∈ formArray s)); cbn; lia.
Qed.

Lemma unRegForm_leaves_only_name_witness :
  NoDup (formArray threeSteps)
  ∧ formArray (unRegForm "first" threeSteps) = ["first"].
Proof.
  assert (H : NoDup (formArray threeSteps)).
  { change (NoDup ["first"; "second"; "third"]).
    apply NoDup_ListNoDup. repeat constructor; cbn; intuition discriminate. }
  split; [exact H|].
  destruct (unRegForm_leaves_only_name "first" threeSteps H) as [-> _].
  reflexivity.
Defined.

(** X5. What [unRegForm] does besides the list of step names: the name
    loses its aggregated data and its configuration, every other name
    keeps both, the remaining data keep their order, the cursor stays
    where it is (also when it pointed at the step that went), flag and
    forms are untouched, and a repeat changes nothing. *)
Theorem unRegForm_drops_one_name (p : StepsFormProps) (name : string)
    (s : State) :
  let s' := unRegForm name s in
  JsMap.get name (formDataRef s') = None
  ∧ JsMap.get name (formMapRef s') = None
  ∧ (∀ n, n ≠ name →
       JsMap.get n (formDataRef s') = JsMap.get n (formDataRef s)
       ∧ JsMap.get n (formMapRef s') = JsMap.get n (formMapRef s))
  ∧ JsMap.keys (formDataRef s')
    = filter (λ n, n ≠ name) (JsMap.keys (formDataRef s))
  ∧ step p s' = step p s
  ∧ loading s' = loading s
  ∧ formArrayRef s' = formArrayRef s
  ∧ unRegForm name s' = s'.
Proof.
  intros s'. unfold s'.
  split; [apply JsMapFacts.get_delete_eq|].
  split; [apply JsMapFacts.get_delete_eq|].
  split; [intros n Hn; split; by apply JsMapFacts.get_delete_ne|].
  split; [apply JsMapFacts.keys_delete|].
  repeat split.
  unfold unRegForm. cbn.
  rewrite !JsMapFacts.delete_delete. f_equal.
  rewrite list_filter_filter. apply list_filter_iff. tauto.
Qed.

(** X6. A step that unmounts and mounts again: with distinct step names
    of which the name is one, [unRegForm] followed by [regForm] leaves the
    name twice in the list of step names; the step has its new
    configuration and no aggregated data. *)
Theorem remount_duplicates_name (name : string) (c : StepFormProps)
    (s : State) :
  NoDup (formArray s) →
  name ∈ formArray s →
  let s' := regForm name c (unRegForm name s) in
  formArray s' = [name; name]
  ∧ stepCount s' = 2%Z
  ∧ JsMap.get name (formMapRef s') = Some c
  ∧ JsMap.get name (formDataRef s') = None.
Proof.
  intros Hnd Hin s'.
  assert (Harr : formArray s' = [name; name]).
  { unfold s'. cbn [regForm formArray].
    change (formMapRef (unRegForm name s))
      with (JsMap.delete name (formMapRef s)).
    rewrite JsMapFacts.has_delete.
    change (formArray (unRegForm name s))
      with (filter (λ n, n = name) (formArray s)).
    rewrite filter_eq_NoDup by done. by rewrite bool_decide_true by done. }
  split; [exact Harr|]. split; [|split].
  - unfold stepCount. by rewrite Harr.
  - apply JsMapFacts.get_set_eq.
  - apply JsMapFacts.get_delete_eq.
Qed.

Lemma remount_duplicates_name_witness :
  NoDup (formArray threeSteps)
  ∧ "second" ∈ formArray threeSteps
  ∧ formArray (regForm "second" (cfg "Address") (unRegForm "second" threeSteps))
    = ["second"; "second"].
Proof.
  assert (H : NoDup (formArray threeSteps)).
  { change (NoDup ["first"; "second"; "third"]).
    apply NoDup_ListNoDup. repeat constructor; cbn; intuition discriminate. }
  assert (Hin : "second" ∈ formArray threeSteps).
  { change ("second" ∈ ["first"; "second"; "third"]). right. left. }
  split; [exact H|]. split; [exact Hin|].
  apply (remount_duplicates_name "second" (cfg "Address") threeSteps H Hin).
Defined.

(** ** More on navigation *)

Lemma navigate_frame (p : StepsFormProps) (s : State) (n : Nav) :
  formDataRef (navigate p s n) = formDataRef s
  ∧ formMapRef (navigate p s n) = formMapRef s
  ∧ formArrayRef (navigate p s n) = formArrayRef s
  ∧ formArray (navigate p s n) = formArray s
  ∧ loading (navigate p s n) = loading s
  ∧ console (navigate p s n) = console s
  ∧ finishCalls (navigate p s n) = finishCalls s.
Proof.
  destruct n; unfold navigate, nextPage, prePage; by case_bool_decide.
Qed.

(** X7. Going back and forth loses nothing: after any sequence of
    [nextPage] / [prePage] calls the aggregated data, the forms, the
    registry, the flag, the log and the record of handler calls are what
    they were. *)
Theorem navigation_touches_cursor_only (p : StepsFormProps) (s : State)
    (navs : list Nav) :
  let s' := foldl (navigate p) s navs in
  formDataRef s' = formDataRef s
  ∧ formMapRef s' = formMapRef s
  ∧ formArrayRef s' = formArrayRef s
  ∧ formArray s' = formArray s
  ∧ loading s' = loading s
  ∧ console s' = console s
  ∧ finishCalls s' = finishCalls s.
Proof.
  revert s. induction navs as [|n navs IH]; intros s; [done|].
  cbn [foldl]. cbv zeta in IH |- *.
  destruct (IH (navigate p s n)) as (-> & -> & -> & -> & -> & -> & ->).
  apply navigate_frame.
Qed.

Lemma step_nextPage_own (p : StepsFormProps) (s : State) :
  current p = None →
  step p (nextPage p s)
  = (if bool_decide (step p s > stepCount s - 2)%Z then step p s
     else step p s + 1)%Z.
Proof.
  intros Hc. unfold nextPage. case_bool_decide; [done|].
  by rewrite step_setStep, Hc.
Qed.

Lemma step_prePage_own (p : StepsFormProps) (s : State) :
  current p = None →
  step p (prePage p s)
  = (if bool_decide (step p s < 1)%Z then step p s else step p s - 1)%Z.
Proof.
  intros Hc. unfold prePage. case_bool_decide; [done|].
  by rewrite step_setStep, Hc.
Qed.

Lemma stepCount_iter (p : StepsFormProps) (s : State) (n : Nav) (k : nat) :
  stepCount (Nat.iter k (λ t, navigate p t n) s) = stepCount s.
Proof.
  induction k as [|k IH]; [done|]. cbn. by rewrite stepCount_navigate.
Qed.

(** X8. In a wizard that owns its cursor, from a cursor inside the list,
    [k] calls of [nextPage] lead to the index [k] further on, capped at
    the last step, and [k] calls of [prePage] lead to the index [k]
    before, capped at 0. *)
Theorem repeated_navigation (p : StepsFormProps) (s : State) (k : nat) :
  current p = None →
  (0 ≤ step p s < stepCount s)%Z →
  step p (Nat.iter k (nextPage p) s)
    = Z.min (step p s + Z.of_nat k) (stepCount s - 1)
  ∧ step p (Nat.iter k (prePage p) s)
    = Z.max (step p s - Z.of_nat k) 0.
Proof.
  intros Hc Hr. split.
  - induction k as [|k IH]; [cbn; lia|].
    rewrite Nat.iter_succ.
    assert (Hn : stepCount (Nat.iter k (nextPage p) s) = stepCount s)
      by exact (stepCount_iter p s GoNext k).
    rewrite step_nextPage_own, Hn, IH by done.
    case_bool_decide; lia.
  - induction k as [|k IH]; [cbn; lia|].
    rewrite Nat.iter_succ.
    rewrite step_prePage_own, IH by done.
    case_bool_decide; lia.
Qed.

Lemma repeated_navigation_witness :
  current noHandler = None
  ∧ (0 ≤ step noHandler threeSteps < stepCount threeSteps)%Z
  ∧ step noHandler (Nat.iter 5 (nextPage noHandler) threeSteps)
    = Z.min (step noHandler threeSteps + 5) (stepCount threeSteps - 1).
Proof.
  assert (H : (0 ≤ step noHandler threeSteps < stepCount threeSteps)%Z)
    by (change (0 ≤ 0 < 3)%Z; lia).
  split; [reflexivity|]. split; [exact H|].
  apply (repeated_navigation noHandler threeSteps 5 eq_refl H).
Defined.

(** X9. Forward and back is a round trip.  In a wizard that owns its
    cursor, [prePage] after [nextPage] from a step before the last, and
    [nextPage] after [prePage] from a step after the first, put the cursor
    back; when no listener is configured the whole state is back. *)
Theorem navigation_round_trip (p : StepsFormProps) (s : State) :
  current p = None →
  ((0 ≤ step p s < stepCount s - 1)%Z →
     step p (prePage p (nextPage p s)) = step p s
     ∧ (onCurrentChange p = false → prePage p (nextPage p s) = s))
  ∧ ((0 < step p s ≤ stepCount s - 1)%Z →
     step p (nextPage p (prePage p s)) = step p s
     ∧ (onCurrentChange p = false → nextPage p (prePage p s) = s)).
Proof.
  intros Hc. split; intros Hr.
  - split.
    + rewrite step_prePage_own, step_nextPage_own by done.
      repeat case_bool_decide; lia.
    + intros Hl. unfold prePage.
      rewrite step_nextPage_own by done.
      rewrite (bool_decide_false (step p s > _)%Z) by lia.
      rewrite bool_decide_false by lia.
      unfold nextPage. rewrite bool_decide_false by lia.
      unfold setStep, step in *. rewrite Hc, Hl in *. cbn.
      rewrite !andb_false_r. destruct s; cbn in *. f_equal. lia.
  - split.
    + rewrite step_nextPage_own, step_prePage_own by done.
      change (stepCount (prePage p s)) with (stepCount (navigate p s GoPrevious)).
      rewrite stepCount_navigate.
      repeat case_bool_decide; lia.
    + intros Hl. unfold nextPage.
      rewrite step_prePage_own by done.
      change (stepCount (prePage p s)) with (stepCount (navigate p s GoPrevious)).
      rewrite stepCount_navigate.
      rewrite (bool_decide_false (step p s < 1)%Z) by lia.
      rewrite bool_decide_false by lia.
      unfold prePage. rewrite bool_decide_false by lia.
      unfold setStep, step in *. rewrite Hc, Hl in *. cbn.
      rewrite !andb_false_r. destruct s; cbn in *. f_equal. lia.
Qed.

Lemma navigation_round_trip_witness :
  current noHandler = None
  ∧ (0 ≤ step noHandler threeSteps < stepCount threeSteps - 1)%Z
  ∧ prePage noHandler (nextPage noHandler threeSteps) = threeSteps.
Proof.
  assert (H : (0 ≤ step noHandler threeSteps < stepCount threeSteps - 1)%Z)
    by (change (0 ≤ 0 < 3 - 1)%Z; lia).
  split; [reflexivity|]. split; [exact H|].
  destruct (navigation_round_trip noHandler threeSteps eq_refl) as [Hfwd _].
  destruct (Hfwd H) as [_ Hback]. apply Hback. reflexivity.
Defined.

(** X10. What the host hears of a page change, whoever owns the cursor:
    [nextPage] before the last step reports the next index to a
    configured listener, [prePage] past index 0 the previous one, and the
    calls at the bounds report nothing; under a controlled [current] the
    cursor the wizard reads does not move. *)
Theorem navigation_notifies (p : StepsFormProps) (s : State) :
  currentChanges (nextPage p s)
    = currentChanges s
      ++ (if bool_decide (step p s ≤ stepCount s - 2)%Z && onCurrentChange p
          then [(step p s + 1)%Z] else [])
  ∧ currentChanges (prePage p s)
    = currentChanges s
      ++ (if bool_decide (1 ≤ step p s)%Z && onCurrentChange p
          then [(step p s - 1)%Z] else [])
  ∧ (∀ c n, current p = Some c → step p (navigate p s n) = c).
Proof.
  split; [|split].
  - unfold nextPage. case_bool_decide.
    + rewrite bool_decide_false by lia. cbn. by rewrite app_nil_r.
    + rewrite bool_decide_true by lia. cbn [setStep currentChanges].
      rewrite (bool_decide_true (step p s ≠ _)) by lia.
      cbn. destruct (onCurrentChange p); [done | by rewrite app_nil_r].
  - unfold prePage. case_bool_decide.
    + rewrite bool_decide_false by lia. cbn. by rewrite app_nil_r.
    + rewrite bool_decide_true by lia. cbn [setStep currentChanges].
      rewrite (bool_decide_true (step p s ≠ _)) by lia.
      cbn. destruct (onCurrentChange p); [done | by rewrite app_nil_r].
  - intros c n Hc.
    destruct n; unfold navigate, nextPage, prePage; case_bool_decide;
      rewrite ?step_setStep; unfold step; by rewrite Hc.
Qed.

(** ** More on the action buttons *)

Lemma getActionButton_cases (p : StepsFormProps) (s : State) :
  ((step p s < 1)%Z ∧ getActionButton p s = [BtnNext])
  ∨ ((1 ≤ step p s)%Z ∧ lastStep p s = true
     ∧ getActionButton p s = [BtnPre; BtnSubmit])
  ∨ ((1 ≤ step p s)%Z ∧ lastStep p s = false
     ∧ getActionButton p s = [BtnPre; BtnNext]).
Proof.
  unfold getActionButton, lastStep. case_bool_decide; [by left|].
  right. case_bool_decide.
  - left. rewrite bool_decide_true by lia. split; [lia | done].
  - right. rewrite bool_decide_false by lia. split; [lia | done].
Qed.

(** X11. Which buttons [getActionButton] offers, at any cursor and step
    count: [submit] exactly on a last step at index 1 or more, [pre]
    exactly at index 1 or more, [next] exactly when [submit] is not
    offered; the list ends with [next] or with [submit]. *)
Theorem action_buttons_membership (p : StepsFormProps) (s : State) :
  (BtnSubmit ∈ getActionButton p s ↔ lastStep p s = true ∧ (1 ≤ step p s)%Z)
  ∧ (BtnPre ∈ getActionButton p s ↔ (1 ≤ step p s)%Z)
  ∧ (BtnNext ∈ getActionButton p s ↔ BtnSubmit ∉ getActionButton p s)
  ∧ (last (getActionButton p s) = Some BtnNext
     ∨ last (getActionButton p s) = Some BtnSubmit).
Proof.
  destruct (getActionButton_cases p s)
    as [(H1 & ->) | [(H1 & Hl & ->) | (H1 & Hl & ->)]];
    cbn [last]; rewrite ?elem_of_cons, ?elem_of_nil;
    repeat split; intros; intuition (try congruence; try lia).
Qed.

(** X12. [submitter={false}] takes every button off the screen at every
    cursor position, and a click on next / submit then does nothing; with
    any other [submitter] every action button is rendered. *)
Theorem submitter_false_hides_buttons (p : StepsFormProps) (s : State) :
  (submitterOn p = false →
     Forall (λ e, e = None) (element p s <$> getActionButton p s)
     ∧ ∀ pending name formData,
         handle p (s, pending) (ClickSubmit name formData) = (s, pending))
  ∧ (submitterOn p = true →
     Forall is_Some (element p s <$> getActionButton p s)).
Proof.
  split; intros Hon.
  - assert (Hall : ∀ b, element p s b = None).
    { intros []; unfold element, next, pre, submit; by rewrite Hon. }
    split.
    + apply Forall_fmap, Forall_forall. intros b _. apply Hall.
    + intros pending name formData. cbn [handle fst].
      unfold primaryButton.
      destruct (getActionButton_cases p s)
        as [(_ & ->) | [(_ & _ & ->) | (_ & _ & ->)]];
        cbv [fmap list_fmap List.last]; by rewrite Hall.
  - apply Forall_fmap, Forall_forall. intros b _.
    destruct b; unfold element, next, pre, submit; rewrite Hon; by eexists.
Qed.

Lemma submitter_false_hides_buttons_witness :
  let p := {| onFinish := None; current := None; onCurrentChange := false;
              submitter := Some SubmitterFalse |} in
  submitterOn p = false
  ∧ Forall (λ e, e = None) (element p threeSteps <$> getActionButton p threeSteps).
Proof.
  intros p. split; [reflexivity|].
  destruct (submitter_false_hides_buttons p threeSteps) as [Hoff _].
  apply Hoff. reflexivity.
Defined.

(** ** The step strip *)

(** X13. The width allowed to the step strip is 320 per step up to three
    steps and 1160 from the fourth step on; it is never negative, never
    above 1160, and a registration never narrows it. *)
Theorem steps_width_bounds (s : State) :
  (0 ≤ stepsMaxWidth s ≤ 1160)%Z
  ∧ ((stepCount s ≤ 3)%Z → stepsMaxWidth s = (320 * stepCount s)%Z)
  ∧ ((4 ≤ stepCount s)%Z → stepsMaxWidth s = 1160%Z)
  ∧ (∀ name c, (stepsMaxWidth s ≤ stepsMaxWidth (regForm name c s))%Z).
Proof.
  assert (H0 : (0 ≤ stepCount s)%Z) by (unfold stepCount; lia).
  unfold stepsMaxWidth. repeat split; try lia.
  intros name c. rewrite stepCount_regForm.
  destruct (JsMap.has name (formMapRef s)); lia.
Qed.

(** ** More on the submission pipeline *)

Lemma onFormFinish_cases (p : StepsFormProps) (name : string)
    (formData : Values) (s : State) :
  let stored := storeData name formData s in
  let values := merge ∅ (JsMap.values (formDataRef stored)) in
  (lastStep p s && bool_decide (is_Some (onFinish p)) = false
   ∧ onFormFinish p name formData s = (stored, None))
  ∨ (lastStep p s && bool_decide (is_Some (onFinish p)) = true
     ∧ ∃ r, onFormFinish p name formData s
            = onFormFinish_settle p r
                (callFinish values (setLoading true stored))).
Proof.
  intros stored values. unfold onFormFinish.
  destruct (lastStep p s) eqn:Hlast, (onFinish p) as [h|] eqn:Hh.
  - right. split; [done|]. exists (h values).
    by rewrite (onFormFinish_begin_final _ _ _ _ h) by done.
  - left. by rewrite onFormFinish_begin_other by auto.
  - left. by rewrite onFormFinish_begin_other by auto.
  - left. by rewrite onFormFinish_begin_other by auto.
Qed.

(** X14. Whatever the props, the cursor and the way the handler settles,
    one call of [onFormFinish] changes the aggregated data by one [set]:
    the name holds the new data, no name that had data loses them, the
    order of the names already there is kept, a new name goes to the end;
    the registry is untouched and the call itself never ends in an
    error. *)
Theorem onFormFinish_touches_one_entry (p : StepsFormProps) (name : string)
    (formData : Values) (s : State) :
  let s' := (onFormFinish p name formData s).1 in
  formDataRef s' = JsMap.set name formData (formDataRef s)
  ∧ JsMap.get name (formDataRef s') = Some formData
  ∧ (∀ n, JsMap.has n (formDataRef s) = true →
          JsMap.has n (formDataRef s') = true)
  ∧ JsMap.keys (formDataRef s')
    = (if JsMap.has name (formDataRef s) then JsMap.keys (formDataRef s)
       else JsMap.keys (formDataRef s) ++ [name])
  ∧ formArray s' = formArray s
  ∧ formMapRef s' = formMapRef s
  ∧ (onFormFinish p name formData s).2 = None.
Proof.
  intros s'.
  assert (Hdata : formDataRef s' = JsMap.set name formData (formDataRef s))
    by apply formDataRef_onFormFinish.
  rewrite Hdata.
  split; [done|]. split; [apply JsMapFacts.get_set_eq|].
  split; [|split; [apply JsMapFacts.keys_set|]].
  - intros n Hn. destruct (decide (name = n)) as [->|Hne].
    + apply JsMapFacts.has_set.
    + apply JsMapFacts.has_get. rewrite JsMapFacts.get_set_ne by done.
      by apply JsMapFacts.has_get.
  - unfold s'.
    destruct (onFormFinish_cases p name formData s)
      as [(_ & ->) | (_ & r & ->)]; [done|].
    destruct r as [[[|]|]|e]; done.
Qed.

(** X15. One call of [onFormFinish] hands the merged data to the handler
    once when the cursor is on the last step and a handler is configured,
    and not at all otherwise; in the first case the flag ends down, in the
    second it is left as it was.  In a wizard without steps the handler is
    never called. *)
Theorem handler_called_once_when_final (p : StepsFormProps) (name : string)
    (formData : Values) (s : State) :
  let s' := (onFormFinish p name formData s).1 in
  let final := lastStep p s && bool_decide (is_Some (onFinish p)) in
  finishCalls s'
    = finishCalls s
      ++ (if final
          then [merge ∅ (JsMap.values (JsMap.set name formData (formDataRef s)))]
          else [])
  ∧ loading s' = (if final then false else loading s)
  ∧ (formArray s = [] → (0 ≤ step p s)%Z → finishCalls s' = finishCalls s).
Proof.
  intros s' final. unfold s', final.
  destruct (onFormFinish_cases p name formData s)
    as [(Hf & ->) | (Hf & r & ->)]; rewrite Hf.
  - cbn. rewrite app_nil_r. done.
  - destruct (onFormFinish_settle_always p r
                (callFinish
                   (merge ∅ (JsMap.values (formDataRef (storeData name formData s))))
                   (setLoading true (storeData name formData s))))
      as (_ & Hl & _ & _ & Hc).
    rewrite Hl, Hc. cbn. repeat split.
    intros Hnil H0. exfalso.
    apply andb_prop in Hf as [Hlast _].
    unfold lastStep in Hlast. apply bool_decide_eq_true in Hlast.
    unfold stepCount in Hlast. rewrite Hnil in Hlast. cbn in Hlast. lia.
Qed.

Lemma handle_flagHasCause (p : StepsFormProps) (c : Config) (e : Event) :
  flagHasCause c → flagHasCause (handle p c e).
Proof.
  destruct c as [s pending]. unfold flagHasCause. cbn [fst snd].
  assert (Hreport : ∀ name d,
            (loading s = true → pending ≠ []) →
            loading (report p name d (s, pending)).1 = true →
            (report p name d (s, pending)).2 ≠ []).
  { intros name d Hinv. unfold report. cbn [fst snd].
    pose proof (loading_onFormFinish_begin p name d s) as Hb.
    destruct (onFormFinish_begin p name d s) as [s1 [v|]]; cbn [fst snd] in *.
    - intros _. by destruct pending.
    - rewrite Hb, app_nil_r. exact Hinv. }
  destruct e as [name d|name d|r| |]; cbn [handle fst snd]; intros Hinv.
  - destruct (fires (primaryButton p s)); [by apply Hreport | exact Hinv].
  - by apply Hreport.
  - destruct pending as [|v pending]; [exact Hinv|]. cbn [fst snd].
    rewrite (proj1 (proj2 (onFormFinish_settle_always p r s))). discriminate.
  - by rewrite loading_prePage.
  - by rewrite loading_nextPage.
Qed.

(** X16. The flag never outlives the invocations.  Along any sequence of
    clicks, direct [onSubmit] calls, page changes and settlements, from a
    configuration in which a raised flag has a pending invocation behind
    it, a raised flag always has one; and the settlement of the only
    pending invocation leaves the flag down, whatever the outcome. *)
Theorem flag_never_outlives_invocations (p : StepsFormProps) (c : Config)
    (es : list Event) :
  flagHasCause c →
  flagHasCause (run p c es)
  ∧ (∀ r, length (run p c es).2 = 1%nat →
       let c' := handle p (run p c es) (Settle r) in
       loading c'.1 = false ∧ c'.2 = []).
Proof.
  intros Hc. split.
  - revert c Hc. induction es as [|e es IH]; intros c Hc; [done|].
    change (run p c (e :: es)) with (run p (handle p c e) es).
    apply IH. by apply handle_flagHasCause.
  - intros r Hlen. destruct (run p c es) as [s [|v [|w pending]]];
      try discriminate. cbn [handle fst snd]. split; [|done].
    apply onFormFinish_settle_always.
Qed.

Lemma flag_never_outlives_invocations_witness :
  let p := uncontrolled (Rejected "boom") in
  let d : Values := {[ "a" := 1%Z ]} in
  let es := [CallOnSubmit "only" d; CallOnSubmit "only" d; Settle (Rejected "boom")] in
  flagHasCause (oneStep, [])
  ∧ flagHasCause (run p (oneStep, []) es).
Proof.
  intros p d es.
  assert (H : flagHasCause (oneStep, [])) by (intros Hl; discriminate Hl).
  split; [exact H|].
  apply (flag_never_outlives_invocations p (oneStep, []) es H).
Defined.

(** X17. A step that registers late moves the final submission.  With the
    cursor on a step of a non-empty wizard, once a name not seen before is
    registered the cursor is not on the last step, and a finish reported
    then is stored without the handler being called. *)
Theorem late_step_moves_final_submission (p : StepsFormProps) (name : string)
    (c : StepFormProps) (s : State) :
  (0 ≤ step p s < stepCount s)%Z →
  JsMap.has name (formMapRef s) = false →
  lastStep p (regForm name c s) = false
  ∧ ∀ n formData,
      finishCalls (onFormFinish p n formData (regForm name c s)).1
      = finishCalls s.
Proof.
  intros Hr Hfresh.
  assert (Hlast : lastStep p (regForm name c s) = false).
  { unfold lastStep. rewrite stepCount_regForm, Hfresh.
    change (step p (regForm name c s)) with (step p s).
    apply bool_decide_false. lia. }
  split; [exact Hlast|]. intros n formData.
  destruct (onFormFinish_cases p n formData (regForm name c s))
    as [(_ & ->) | (Hf & _)]; [done|].
  rewrite Hlast in Hf. discriminate.
Qed.

Lemma late_step_moves_final_submission_witness :
  let p := uncontrolled (Resolved (Some true)) in
  let s := nextPage p twoSteps in
  (0 ≤ step p s < stepCount s)%Z
  ∧ JsMap.has "third" (formMapRef s) = false
  ∧ lastStep p s = true
  ∧ lastStep p (regForm "third" (cfg "Pay") s) = false.
Proof.
  intros p s.
  assert (H : (0 ≤ step p s < stepCount s)%Z) by (change (0 ≤ 1 < 2)%Z; lia).
  split; [exact H|]. split; [reflexivity|]. split; [reflexivity|].
  apply (late_step_moves_final_submission p "third" (cfg "Pay") s H eq_refl).
Defined.

(** ** The form behind the cursor *)

(** X18. [onSubmit] asks a form to submit exactly when [formRef] exposes
    one, and then it is that form; it throws exactly when the cursor is
    negative or at or beyond the number of slots of [formArrayRef], the
    case of a wizard without children among them. *)
Theorem onSubmit_targets_current_form (p : StepsFormProps) (s : State) :
  (∀ form, onSubmit p s = Submits form ↔ currentForm p s = Some form)
  ∧ (onSubmit p s = ThrowsTypeError
     ↔ (step p s < 0 ∨ Z.of_nat (length (formArrayRef s)) ≤ step p s)%Z)
  ∧ (formArrayRef s = [] → onSubmit p s = ThrowsTypeError).
Proof.
  unfold onSubmit, currentForm.
  case_bool_decide as Hneg.
  - repeat split; intros; try done; auto.
  - destruct (formArrayRef s !! Z.to_nat (step p s)) as [[form|]|] eqn:E; cbn.
    + apply lookup_lt_Some in E.
      repeat split; intros; try congruence; try lia.
      subst. rewrite H in E. cbn in E. lia.
    + apply lookup_lt_Some in E.
      repeat split; intros; try congruence; try lia.
      subst. rewrite H in E. cbn in E. lia.
    + apply lookup_ge_None in E.
      repeat split; intros; try congruence; try done. right. lia.
Qed.

(** ** Rendering the children *)

Lemma formDom_names (p : StepsFormProps) (s : State) (children : list Child) :
  ((λ i : string * StepFormProps * bool, (i.1.1, i.1.2))
     <$> imap (formDomItem p s) children).*1
  = imap nameOf children.
Proof.
  apply list_eq. intros i.
  rewrite !list_lookup_fmap, !list_lookup_imap.
  by destruct (children !! i).
Qed.

Lemma formDom_lists (p : StepsFormProps) (children : list Child) (s : State) :
  let fresh := filter (λ n, n ∉ JsMap.keys (formMapRef s))
                 (firstFinishOrder (imap nameOf children)) in
  formArray (formDom p children s).1 = formArray s ++ fresh
  ∧ JsMap.keys (formMapRef (formDom p children s).1)
    = JsMap.keys (formMapRef s) ++ fresh.
Proof.
  unfold formDom. cbn [fst].
  pose proof (registerAll_lists
                ((λ i : string * StepFormProps * bool, (i.1.1, i.1.2))
                   <$> imap (formDomItem p s) children) s) as H.
  cbv zeta in H. by rewrite formDom_names in H.
Qed.

Lemma filter_none {A} (P : A → Prop) `{!∀ x, Decision (P x)} (l : list A) :
  (∀ x, x ∈ l → ¬ P x) → filter P l = [].
Proof.
  induction l as [|x l IH]; intros HP; [done|].
  rewrite filter_cons_False by (apply HP; left).
  apply IH. intros y Hy. apply HP. by right.
Qed.

Lemma formDom_initial_lists (p : StepsFormProps) (children : list Child) :
  formArray (formDom p children initial).1
    = firstFinishOrder (imap nameOf children)
  ∧ JsMap.keys (formMapRef (formDom p children initial).1)
    = firstFinishOrder (imap nameOf children).
Proof.
  destruct (formDom_lists p children initial) as [Harr Hkeys].
  rewrite Harr, Hkeys. cbn [initial formArray formMapRef app].
  change (JsMap.keys JsMap.empty) with (@nil string). cbn [app].
  rewrite filter_all by (intros x; apply not_elem_of_nil). done.
Qed.

(** X19. The first render: from the initial state, children whose names
    (given, or their index) are distinct become the steps of the wizard in
    the order in which they are declared, one step per child. *)
Theorem formDom_registers_in_declared_order (p : StepsFormProps)
    (children : list Child) :
  NoDup (imap nameOf children) →
  formArray (formDom p children initial).1 = imap nameOf children
  ∧ (formDom p children initial).2.*1 = imap nameOf children
  ∧ stepCount (formDom p children initial).1 = Z.of_nat (length children)
  ∧ inSync (formDom p children initial).1.
Proof.
  intros Hnd.
  destruct (formDom_initial_lists p children) as [Harr Hkeys].
  rewrite firstFinishOrder_NoDup in Harr, Hkeys by done.
  split; [exact Harr|]. split; [|split].
  - unfold formDom. cbn [snd]. apply list_eq. intros i.
    rewrite !list_lookup_fmap, !list_lookup_imap.
    by destruct (children !! i).
  - unfold stepCount. by rewrite Harr, length_imap.
  - unfold inSync. by rewrite Harr, Hkeys.
Qed.

Lemma formDom_registers_in_declared_order_witness :
  let children :=
    [ {| childName := Some "cart"; childProps := cfg "Cart" |};
      {| childName := None; childProps := cfg "Address" |};
      {| childName := Some ""; childProps := cfg "Pay" |} ] in
  NoDup (imap nameOf children)
  ∧ formArray (formDom noHandler children initial).1 = ["cart"; "1"; "2"].
Proof.
  intros children.
  assert (H : NoDup (imap nameOf children)).
  { change (NoDup ["cart"; "1"; "2"]).
    apply NoDup_ListNoDup. repeat constructor; cbn; intuition discriminate. }
  split; [exact H|].
  destruct (formDom_registers_in_declared_order noHandler children H) as [-> _].
  reflexivity.
Defined.

Lemma imap_nameOf_unnamed (children : list Child) :
  Forall (λ c, childName c = None) children →
  imap nameOf children = pretty <$> seq 0 (length children).
Proof.
  intros Hall. apply list_eq. intros i.
  rewrite list_lookup_imap, list_lookup_fmap.
  destruct (children !! i) as [c|] eqn:E.
  - rewrite lookup_seq_lt by (by eapply lookup_lt_Some). cbn.
    rewrite Forall_forall in Hall.
    unfold nameOf. rewrite (Hall c); [done|].
    by eapply list_elem_of_lookup_2.
  - rewrite lookup_ge_None_2; [done|].
    rewrite length_seq. by apply lookup_ge_None.
Qed.

(** X20. Children without a [name] get their index as name: from the
    initial state, [n] unnamed children give the steps 0, 1, ..., n-1 in
    decimal, all distinct, so that the wizard has [n] steps. *)
Theorem unnamed_children_are_numbered (p : StepsFormProps)
    (children : list Child) :
  Forall (λ c, childName c = None) children →
  formArray (formDom p children initial).1
    = pretty <$> seq 0 (length children)
  ∧ NoDup (formArray (formDom p children initial).1)
  ∧ stepCount (formDom p children initial).1 = Z.of_nat (length children).
Proof.
  intros Hall.
  assert (Hnd : NoDup (pretty <$> seq 0 (length children) : list string)).
  { apply (NoDup_fmap_2 _). apply NoDup_seq. }
  destruct (formDom_initial_lists p children) as [Harr _].
  rewrite imap_nameOf_unnamed in Harr by done.
  rewrite firstFinishOrder_NoDup in Harr by done.
  rewrite Harr. split; [done|]. split; [done|].
  unfold stepCount. by rewrite Harr, length_fmap, length_seq.
Qed.

Lemma unnamed_children_are_numbered_witness :
  let children :=
    [ {| childName := None; childProps := cfg "Cart" |};
      {| childName := None; childProps := cfg "Pay" |} ] in
  Forall (λ c, childName c = None) children
  ∧ formArray (formDom noHandler children initial).1 = ["0"; "1"].
Proof.
  intros children.
  assert (H : Forall (λ c, childName c = None) children)
    by (repeat constructor).
  split; [exact H|].
  destruct (unnamed_children_are_numbered noHandler children H) as [-> _].
  reflexivity.
Defined.

(** X21. A re-render registers nothing new: after one pass of [formDom]
    over the children, from any state, a second pass over the same
    children, at whatever cursor, leaves the list of step names and the
    key list of the configurations as the first pass left them. *)
Theorem rerender_adds_no_step (p q : StepsFormProps) (children : list Child)
    (s : State) :
  let s1 := (formDom p children s).1 in
  let s2 := (formDom q children s1).1 in
  formArray s2 = formArray s1
  ∧ stepCount s2 = stepCount s1
  ∧ JsMap.keys (formMapRef s2) = JsMap.keys (formMapRef s1).
Proof.
  intros s1 s2.
  destruct (formDom_lists p children s) as [_ Hkeys1]. fold s1 in Hkeys1.
  destruct (formDom_lists q children s1) as [Harr2 Hkeys2].
  fold s2 in Harr2, Hkeys2.
  assert (Hnone : filter (λ n, n ∉ JsMap.keys (formMapRef s1))
                    (firstFinishOrder (imap nameOf children)) = []).
  { apply filter_none. intros x Hx Hnot. apply Hnot.
    rewrite Hkeys1, elem_of_app.
    destruct (decide (x ∈ JsMap.keys (formMapRef s))); [by left|].
    right. by apply list_elem_of_filter. }
  rewrite Hnone, app_nil_r in Harr2, Hkeys2.
  split; [done|]. split; [|done]. unfold stepCount. by rewrite Harr2.
Qed.

(** X22. At most one child is rendered active, the one whose index is the
    cursor; one is whenever the cursor indexes a child. *)
Theorem one_child_is_active (p : StepsFormProps) (children : list Child)
    (s : State) :
  let doms := (formDom p children s).2 in
  (∀ i name, doms !! i = Some (name, true) → step p s = Z.of_nat i)
  ∧ (∀ i j name name',
       doms !! i = Some (name, true) → doms !! j = Some (name', true) → i = j)
  ∧ (∀ i child, children !! i = Some child → step p s = Z.of_nat i →
       doms !! i = Some (nameOf i child, true)).
Proof.
  intros doms.
  assert (Hdoms : ∀ i, doms !! i
            = (λ c, (nameOf i c, bool_decide (step p s = Z.of_nat i)))
                <$> children !! i).
  { intros i. unfold doms, formDom. cbn [snd].
    rewrite list_lookup_fmap, list_lookup_imap.
    by destruct (children !! i). }
  assert (Hone : ∀ i name, doms !! i = Some (name, true) → step p s = Z.of_nat i).
  { intros i name. rewrite Hdoms. destruct (children !! i); [|done].
    cbn. intros [= _ Hb]. by apply bool_decide_eq_true in Hb. }
  split; [exact Hone|]. split.
  - intros i j name name' Hi Hj.
    apply Hone in Hi. apply Hone in Hj. lia.
  - intros i child Hc Hs. rewrite Hdoms, Hc. cbn.
    by rewrite bool_decide_true.
Qed.
